(** * Tierlist bot: state machine, layout and drawing, from [main.py]

    The development follows the source top-down: the entity model
    ([Member], [Tier]), [Tierlist] with [add_member] / [remove_member],
    [TierlistManager] with its four operations and error codes, and
    [TierlistRenderer] with [_calc_tier_height] and [_draw].

    Python dictionaries keep insertion order, and the drawing loop walks
    each tier's members in that order, so a tier's members are an ordered
    association list.  The manager's name -> Tierlist dictionary is only
    ever read by key, so it is a finite map.  Integers are unbounded, as
    in Python; the few float operations of the renderer are computed in
    binary64.  A call that can raise returns an [outcome]. *)

From stdpp Require Import gmap strings list.
From Stdlib Require Import ZArith Lia.

Local Open Scope Z_scope.

(** ** Entity model *)

(** [@dataclass class Member] *)
Record Member : Type := mkMember { name : string; avatar_url : string }.

(** [class Tier(Enum)]: members are written [Tier.S] ... [Tier.F], as in
    the source. *)
Module Tier.
Inductive t : Type := S | A | B | C | D | F.

(** The enumeration value of a member. *)
Definition value (x : t) : Z :=
  match x with S => 0 | A => 1 | B => 2 | C => 3 | D => 4 | F => 5 end.

(** [tier.name] *)
Definition name (x : t) : string :=
  match x with
  | S => "S" | A => "A" | B => "B" | C => "C" | D => "D" | F => "F"
  end.

(** Iteration order of [for tier in Tier]: declaration order. *)
Definition all : list t := [S; A; B; C; D; F].

Definition eqb (x y : t) : bool := value x =? value y.
End Tier.

Abbreviation Tier := Tier.t.

(** A [target_tier] that is a member of an enumeration: of [Tier], the
    annotated type, or of another [Enum] class, written by the names of the
    class and of the member.  The other class is a plain [Enum], whose
    members are equal to nothing but themselves.  Values that are no
    enumeration members at all come further down, with the guard of
    [add_member] as it runs on them. *)
Inductive tier_value : Type :=
| TierMember (t : Tier)
| OtherEnumMember (cls member : string).

(** [target_tier in Tier], for a member of an enumeration:
    [EnumMeta.__contains__] answers [isinstance(member, Tier)] there, on
    every interpreter. *)
Definition in_Tier (v : tier_value) : bool :=
  match v with TierMember _ => true | OtherEnumMember _ _ => false end.

(** ** Insertion-ordered dictionaries [Dict[int, Member]] *)

Abbreviation pydict := (list (Z * Member)).

(** [k in d] *)
Fixpoint dict_contains (k : Z) (d : pydict) : bool :=
  match d with
  | [] => false
  | (k', _) :: rest => if k' =? k then true else dict_contains k rest
  end.

(** [d.get(k)] *)
Fixpoint dict_get (k : Z) (d : pydict) : option Member :=
  match d with
  | [] => None
  | (k', v) :: rest => if k' =? k then Some v else dict_get k rest
  end.

(** [del d[k]], used only under the guard [k in d]: the entry goes, the
    others keep their order. *)
Fixpoint dict_del (k : Z) (d : pydict) : pydict :=
  match d with
  | [] => []
  | (k', v) :: rest =>
      if k' =? k then dict_del k rest else (k', v) :: dict_del k rest
  end.

(** [d[k] = v]: an existing key keeps its place and takes the new value, a
    new key goes to the end. *)
Fixpoint dict_set (k : Z) (v : Member) (d : pydict) : pydict :=
  match d with
  | [] => [(k, v)]
  | (k', v') :: rest =>
      if k' =? k then (k, v) :: rest else (k', v') :: dict_set k v rest
  end.

(** [len(d)] *)
Definition dict_len (d : pydict) : Z := Z.of_nat (length d).

(** ** Tierlist *)

(** [self.tiers : Dict[Tier, Dict[int, Member]]].  The outer dictionary is
    built with one entry per tier and its key set never changes, so it is a
    record with one field per tier. *)
Record Tierlist : Type := mkTierlist {
  tier_S : pydict; tier_A : pydict; tier_B : pydict;
  tier_C : pydict; tier_D : pydict; tier_F : pydict
}.

(** [Tierlist.__init__]: [{tier: {} for tier in Tier}] *)
Definition Tierlist_init : Tierlist := mkTierlist [] [] [] [] [] [].

(** [self.tiers[tier]] *)
Definition tiers (self : Tierlist) (tier : Tier) : pydict :=
  match tier with
  | Tier.S => tier_S self | Tier.A => tier_A self | Tier.B => tier_B self
  | Tier.C => tier_C self | Tier.D => tier_D self | Tier.F => tier_F self
  end.

(** The state after an in-place change of [self.tiers[tier]] to [d]. *)
Definition set_tier (self : Tierlist) (tier : Tier) (d : pydict) : Tierlist :=
  let s := tier_S self in
  let a := tier_A self in
  let b := tier_B self in
  let c := tier_C self in
  let d' := tier_D self in
  let f := tier_F self in
  match tier with
  | Tier.S => mkTierlist d a b c d' f
  | Tier.A => mkTierlist s d b c d' f
  | Tier.B => mkTierlist s a d c d' f
  | Tier.C => mkTierlist s a b d d' f
  | Tier.D => mkTierlist s a b c d f
  | Tier.F => mkTierlist s a b c d' d
  end.

(** [self.tiers.items()], in the dictionary's order. *)
Definition tiers_items (self : Tierlist) : list (Tier * pydict) :=
  map (fun tier => (tier, tiers self tier)) Tier.all.

(** The loop shared by [add_member] and [remove_member]:
<<
    for tier in self.tiers:
        if _id in self.tiers[tier]:
            del self.tiers[tier][_id]
            break            # remove_member: return True
>>
    over the tiers still to visit; the boolean tells whether a tier held
    the identifier. *)
Fixpoint delete_first (self : Tierlist) (_id : Z) (todo : list Tier)
  : bool * Tierlist :=
  match todo with
  | [] => (false, self)
  | tier :: rest =>
      if dict_contains _id (tiers self tier)
      then (true, set_tier self tier (dict_del _id (tiers self tier)))
      else delete_first self _id rest
  end.

(** [Tierlist.add_member] on a member of an enumeration: the returned
    boolean and the state afterwards. *)
Definition add_member (self : Tierlist) (_id : Z) (_data : Member)
  (target_tier : tier_value) : bool * Tierlist :=
  match target_tier with
  | OtherEnumMember _ _ => (false, self)
  | TierMember target =>
      let self' := snd (delete_first self _id Tier.all) in
      (true, set_tier self' target (dict_set _id _data (tiers self' target)))
  end.

(** [Tierlist.remove_member] *)
Definition remove_member (self : Tierlist) (_id : Z) : bool * Tierlist :=
  delete_first self _id Tier.all.

(** A call on a [Tierlist], and the state after a sequence of calls. *)
Inductive tierlist_call : Type :=
| CallAdd (_id : Z) (_data : Member) (target_tier : tier_value)
| CallRemove (_id : Z).

Definition run_call (self : Tierlist) (c : tierlist_call) : Tierlist :=
  match c with
  | CallAdd i d t => snd (add_member self i d t)
  | CallRemove i => snd (remove_member self i)
  end.

Definition run_calls (calls : list tierlist_call) (self : Tierlist) : Tierlist :=
  fold_left run_call calls self.

(** ** TierlistManager *)

(** [class TierlistError(IntEnum)], values given by [auto()]. *)
Inductive TierlistError : Type :=
| SUCCESS
| USER_NOT_FOUND
| INVALID_TIER
| TIERLIST_NOT_ACTIVE
| TIERLIST_ALREADY_ACTIVE.

Definition TierlistError_value (e : TierlistError) : Z :=
  match e with
  | SUCCESS => 1 | USER_NOT_FOUND => 2 | INVALID_TIER => 3
  | TIERLIST_NOT_ACTIVE => 4 | TIERLIST_ALREADY_ACTIVE => 5
  end.

(** Exceptions the modelled code can raise. *)
Inductive exn : Type :=
| KeyError
| AttributeError
| TypeError.

(** A call either returns a value or raises. *)
Inductive outcome (X : Type) : Type :=
| Returns (x : X)
| Raises (e : exn).
Arguments Returns {X} x.
Arguments Raises {X} e.

Record TierlistManager : Type := mkManager {
  tierlists : gmap string Tierlist;
  currently_active : option string
}.

(** [TierlistManager.__init__] *)
Definition TierlistManager_init : TierlistManager := mkManager ∅ None.

(** Every operation yields its return value together with the manager
    state it leaves behind. *)
Definition begin_tierlist (self : TierlistManager) (name : string)
  : outcome (TierlistError * TierlistManager) :=
  match currently_active self with
  | Some _ => Returns (TIERLIST_ALREADY_ACTIVE, self)
  | None =>
      match tierlists self !! name with
      | Some _ => Returns (SUCCESS, mkManager (tierlists self) (Some name))
      | None =>
          Returns (SUCCESS,
                   mkManager (<[name := Tierlist_init]> (tierlists self)) (Some name))
      end
  end.

Definition end_tierlist (self : TierlistManager)
  : outcome (TierlistError * TierlistManager) :=
  match currently_active self with
  | Some _ => Returns (SUCCESS, mkManager (tierlists self) None)
  | None => Returns (TIERLIST_NOT_ACTIVE, self)
  end.

(** [self.tierlists[self.currently_active]] raises [KeyError] on a missing
    key; the [Tierlist] found is mutated in place, so the dictionary holds
    the changed object afterwards. *)
Definition add_to_tierlist (self : TierlistManager) (_id : Z) (_data : Member)
  (target_tier : tier_value) : outcome (TierlistError * TierlistManager) :=
  match currently_active self with
  | None => Returns (TIERLIST_NOT_ACTIVE, self)
  | Some active =>
      match tierlists self !! active with
      | None => Raises KeyError
      | Some tl =>
          let '(ok, tl') := add_member tl _id _data target_tier in
          let self' := mkManager (<[active := tl']> (tierlists self)) (Some active) in
          if negb ok then Returns (INVALID_TIER, self')
          else Returns (SUCCESS, self')
      end
  end.

Definition remove_from_tierlist (self : TierlistManager) (_id : Z)
  : outcome (TierlistError * TierlistManager) :=
  match currently_active self with
  | None => Returns (TIERLIST_NOT_ACTIVE, self)
  | Some active =>
      match tierlists self !! active with
      | None => Raises KeyError
      | Some tl =>
          let '(found, tl') := remove_member tl _id in
          let self' := mkManager (<[active := tl']> (tierlists self)) (Some active) in
          if negb found then Returns (USER_NOT_FOUND, self')
          else Returns (SUCCESS, self')
      end
  end.

(** A call on the manager, and a run of calls from a state; a raised
    exception ends the run. *)
Inductive manager_call : Type :=
| Begin (name : string)
| End_
| AddTo (_id : Z) (_data : Member) (target_tier : tier_value)
| RemoveFrom (_id : Z).

Definition manager_step (self : TierlistManager) (c : manager_call)
  : outcome (TierlistError * TierlistManager) :=
  match c with
  | Begin n => begin_tierlist self n
  | End_ => end_tierlist self
  | AddTo i d t => add_to_tierlist self i d t
  | RemoveFrom i => remove_from_tierlist self i
  end.

Fixpoint manager_run (self : TierlistManager) (calls : list manager_call)
  : outcome TierlistManager :=
  match calls with
  | [] => Returns self
  | c :: rest =>
      match manager_step self c with
      | Returns (_, self') => manager_run self' rest
      | Raises e => Raises e
      end
  end.

(** ** [target_tier not in Tier] on any value

    Nothing enforces the annotation [target_tier: Tier], and the guard of
    [add_member] is there for the values outside it.  [x in Tier] is
    [EnumMeta.__contains__], which changed with Python 3.12:
    - on Python 3.8 to 3.11 it raises [TypeError] for an [x] that is no
      member of any enumeration, and answers [isinstance(x, Tier)] for one
      that is;
    - from Python 3.12 on it raises nothing for a hashable [x] and is true
      for the members of [Tier] and for the values of its members, here
      the integers 0 to 5.
    The values that are no enumeration members are taken from [int] and
    [str]. *)
Inductive python : Type :=
| Python_3_8_to_3_11
| Python_3_12.

Inductive py_value : Type :=
| PyEnum (v : tier_value)
| PyInt (z : Z)
| PyStr (s : string).

(** [value in Tier] *)
Definition Tier_contains (py : python) (value : py_value) : outcome bool :=
  match value with
  | PyEnum v => Returns (in_Tier v)
  | PyInt z =>
      match py with
      | Python_3_8_to_3_11 => Raises TypeError
      | Python_3_12 => Returns ((0 <=? z) && (z <=? 5))
      end
  | PyStr _ =>
      match py with
      | Python_3_8_to_3_11 => Raises TypeError
      | Python_3_12 => Returns false
      end
  end.

(** [Tierlist.add_member] on any value: what the call returns or raises,
    and the state it leaves.  An integer that passes the guard is no key of
    [self.tiers], whose keys are the members of [Tier]: the deletion loop
    runs and [self.tiers[target_tier]] raises [KeyError]. *)
Definition add_member_untyped (py : python) (self : Tierlist) (_id : Z)
  (_data : Member) (target_tier : py_value) : outcome bool * Tierlist :=
  match Tier_contains py target_tier with
  | Raises e => (Raises e, self)
  | Returns false => (Returns false, self)
  | Returns true =>
      let self' := snd (delete_first self _id Tier.all) in
      match target_tier with
      | PyEnum (TierMember target) =>
          (Returns true,
           set_tier self' target (dict_set _id _data (tiers self' target)))
      | _ => (Raises KeyError, self')
      end
  end.

(** [TierlistManager.add_to_tierlist] on any value: an exception of
    [add_member] goes through it, and the active list keeps what
    [add_member] did before raising. *)
Definition add_to_tierlist_untyped (py : python) (self : TierlistManager)
  (_id : Z) (_data : Member) (target_tier : py_value)
  : outcome TierlistError * TierlistManager :=
  match currently_active self with
  | None => (Returns TIERLIST_NOT_ACTIVE, self)
  | Some active =>
      match tierlists self !! active with
      | None => (Raises KeyError, self)
      | Some tl =>
          let '(result, tl') := add_member_untyped py tl _id _data target_tier in
          let self' := mkManager (<[active := tl']> (tierlists self)) (Some active) in
          match result with
          | Raises e => (Raises e, self')
          | Returns ok =>
              if negb ok then (Returns INVALID_TIER, self')
              else (Returns SUCCESS, self')
          end
      end
  end.

(** ** binary64 numbers

    [label_width] is [int(total_width * 0.15)], the row count is
    [math.ceil(num_members / avatars_per_row)] and the label anchors are
    halved integers: these go through Python floats.  A finite binary64
    number is kept as [mant * 2 ^ expo] with [2^52 <= |mant| < 2^53] (zero
    as [0 * 2^0]), and every operation is the exact result rounded to the
    nearest such number, ties to even, as IEEE 754 and CPython's integer
    true division define it.  The exponent is left unbounded: overflow
    needs a magnitude of [2^1024] and a subnormal result one below
    [2^-1022], and the operands here are pixel constants and values of
    [len], which stays below [2^63]. *)
Module Float.
Record t : Type := mk { mant : Z; expo : Z }.

(** [n / d < 2 ^ e], for positive [n] and [d]. *)
Definition ratio_lt_pow2 (n d e : Z) : bool :=
  if 0 <=? e then n <? d * 2 ^ e else n * 2 ^ (- e) <? d.

(** [floor (log2 (n / d))], for positive [n] and [d]. *)
Definition ilog2_ratio (n d : Z) : Z :=
  let s := Z.log2 n - Z.log2 d in
  if ratio_lt_pow2 n d s then s - 1 else s.

(** The integer nearest to [n / d], ties to even, for [0 <= n], [0 < d]. *)
Definition nearest_even (n d : Z) : Z :=
  let q := n / d in
  let r := n mod d in
  if 2 * r <? d then q
  else if d <? 2 * r then q + 1
  else if Z.even q then q else q + 1.

(** The binary64 nearest to [n / d], for positive [n] and [d]: the
    exponent that scales the quotient into [[2^52, 2^53)], the scaled
    quotient rounded to an integer, and the renormalisation when the
    rounding reaches [2^53]. *)
Definition exponent (n d : Z) : Z := ilog2_ratio n d - 52.

Definition mantissa (n d : Z) : Z :=
  let e := exponent n d in
  if 0 <=? e then nearest_even n (d * 2 ^ e)
  else nearest_even (n * 2 ^ (- e)) d.

Definition normalise (m e : Z) : t :=
  if m =? 2 ^ 53 then mk (2 ^ 52) (e + 1) else mk m e.

Definition round_pos (n d : Z) : t := normalise (mantissa n d) (exponent n d).

(** The binary64 nearest to [n / d], for [0 < d]. *)
Definition round (n d : Z) : t :=
  match n with
  | 0 => mk 0 0
  | Zpos _ => round_pos n d
  | Zneg _ => let r := round_pos (- n) d in mk (- mant r) (expo r)
  end.

(** The binary64 nearest to [n * 2 ^ e]. *)
Definition round_scaled (n e : Z) : t :=
  if 0 <=? e then round (n * 2 ^ e) 1 else round n (2 ^ (- e)).

(** [float(z)] *)
Definition of_int (z : Z) : t := round z 1.

(** A decimal literal [n / d], as in [0.15 = 15 / 100]. *)
Definition literal (n d : Z) : t := round n d.

(** [a / b] on integers: the correctly rounded quotient.  Python raises
    [ZeroDivisionError] for [b = 0]; every divisor in this program is at
    least 1 ([avatars_per_row] after its clamp, and the literal [2]), the
    value given here for [b = 0] is never used. *)
Definition truediv (a b : Z) : t :=
  if 0 <? b then round a b
  else if b <? 0 then round (- a) (- b)
  else mk 0 0.

(** [x * y] *)
Definition mul (x y : t) : t :=
  round_scaled (mant x * mant y) (expo x + expo y).

(** [x + y] *)
Definition add (x y : t) : t :=
  let e := Z.min (expo x) (expo y) in
  round_scaled (mant x * 2 ^ (expo x - e) + mant y * 2 ^ (expo y - e)) e.

(** [int(x)]: truncation towards zero. *)
Definition to_int (x : t) : Z :=
  if 0 <=? expo x then mant x * 2 ^ expo x
  else Z.quot (mant x) (2 ^ (- expo x)).

(** [math.ceil(x)] *)
Definition ceil (x : t) : Z :=
  if 0 <=? expo x then mant x * 2 ^ expo x
  else - ((- mant x) / 2 ^ (- expo x)).
End Float.

(** ** TierlistRenderer *)

(** A number handed to PIL as a coordinate: Python keeps integers and
    floats apart. *)
Inductive number : Type :=
| Int (z : Z)
| Flt (x : Float.t).

Definition color : Type := (Z * Z * Z)%type.

(** [ImageFont.truetype(file, size)] and [ImageFont.load_default()]. *)
Inductive font : Type :=
| TrueType (file : string) (size : Z)
| DefaultFont.

(** The attributes of a renderer.  [font_names] is assigned in the [try]
    branch of [__init__] and [font_name] in its [except IOError] branch,
    so each of the two can be missing from the object. *)
Record TierlistRenderer : Type := mkRenderer {
  total_width : Z;
  avatar_size : Z;
  padding : Z;
  text_height : Z;
  min_tier_height : Z;
  label_width : Z;
  content_width : Z;
  tier_colors : gmap string color;
  font_label : font;
  font_names : option font;
  font_name : option font
}.

Definition tier_colors_init : gmap string color :=
  <["S" := (255, 127, 127)]> (<["A" := (255, 191, 127)]>
  (<["B" := (255, 255, 127)]> (<["C" := (127, 255, 127)]>
  (<["D" := (127, 127, 255)]> (<["F" := (255, 127, 255)]> ∅))))).

(** [TierlistRenderer.__init__].  [truetype file size] is [None] when
    [ImageFont.truetype] raises [IOError]. *)
Definition TierlistRenderer_init (truetype : string -> Z -> option font)
  : TierlistRenderer :=
  let total_width := 1000 in
  let label_width :=
    Float.to_int (Float.mul (Float.of_int total_width) (Float.literal 15 100)) in
  let content_width := total_width - label_width in
  let mk := mkRenderer total_width 100 10 20 100 label_width content_width
              tier_colors_init in
  match truetype "arial.ttf" 40 with
  | Some label =>
      match truetype "arial.ttf" 15 with
      | Some names => mk label (Some names) None
      | None => mk DefaultFont None (Some DefaultFont)
      end
  | None => mk DefaultFont None (Some DefaultFont)
  end.

(** The row length both [_calc_tier_height] and [_draw] compute:
<<
    avatars_per_row = self.content_width // unit_width
    if avatars_per_row < 1: avatars_per_row = 1
>> *)
Definition avatars_per_row (self : TierlistRenderer) : Z :=
  let unit_width := avatar_size self + padding self in
  let avatars_per_row := content_width self / unit_width in
  if avatars_per_row <? 1 then 1 else avatars_per_row.

(** [TierlistRenderer._calc_tier_height] *)
Definition _calc_tier_height (self : TierlistRenderer) (num_members : Z) : Z :=
  if num_members =? 0 then min_tier_height self + padding self * 2
  else
    let unit_height := avatar_size self + text_height self + padding self in
    let required_rows :=
      Float.ceil (Float.truediv num_members (avatars_per_row self)) in
    required_rows * unit_height + padding self.

(** What [_draw] does to the canvas, in order. *)
Inductive draw_op (Image : Type) : Type :=
| Rectangle (x0 y0 x1 y1 : Z) (fill outline : color)
| Text (x y : number) (text : string) (fill : color) (fnt : font) (anchor : string)
| Paste (img : Image) (x y : Z)
| Line (x0 y0 x1 y1 : Z) (fill : color) (width : Z).
Arguments Rectangle {Image}.
Arguments Text {Image}.
Arguments Paste {Image}.
Arguments Line {Image}.

(** The canvas [_draw] encodes as PNG: [Image.new("RGB", (w, h), bg)] and
    the operations applied to it. *)
Record Canvas (Image : Type) : Type := mkCanvas {
  canvas_width : Z;
  canvas_height : Z;
  background : color;
  drawn : list (draw_op Image)
}.
Arguments mkCanvas {Image}.
Arguments canvas_width {Image}.
Arguments canvas_height {Image}.
Arguments background {Image}.
Arguments drawn {Image}.

(** Sequencing of calls that may raise. *)
Definition bind {X Y : Type} (c : outcome X) (k : X -> outcome Y) : outcome Y :=
  match c with
  | Returns x => k x
  | Raises e => Raises e
  end.

(** [self.font_name]: [AttributeError] when the attribute was never set. *)
Definition get_font_name (self : TierlistRenderer) : outcome font :=
  match font_name self with
  | Some f => Returns f
  | None => Raises AttributeError
  end.

(** The label under an avatar: names longer than 10 characters are cut to
    9 and marked. *)
Definition display_name (member : Member) : string :=
  let display_name := name member in
  if (10 <? Z.of_nat (String.length display_name))
  then String.substring 0 9 display_name +:+ ".."
  else display_name.

Section Draw.
(** PIL is outside the repository: the downloaded payloads, the decoded
    images and the two image operations of the paste are parameters.
    [open_rgba data] is [Image.open(data).convert("RGBA")], [None] when the
    [try] block raises; its [except Exception] clause prints the error and
    the loop body goes on with the name label. *)
Variables BytesIO Image : Type.
Variable open_rgba : BytesIO -> option Image.
Variable resize : Image -> Z -> Z -> Image.

Variable self : TierlistRenderer.
Variable avatar_images : gmap Z BytesIO.

(** Pixel position of grid slot [index] of a tier whose band starts at
    [current_y]. *)
Definition x_pos (index : Z) : Z :=
  let unit_width := avatar_size self + padding self in
  let start_x := label_width self + padding self in
  let col := index mod avatars_per_row self in
  start_x + col * unit_width.

Definition y_pos (current_y index : Z) : Z :=
  let unit_height := avatar_size self + text_height self + padding self in
  let start_y := current_y + padding self in
  let row := index / avatars_per_row self in
  start_y + row * unit_height.

(** The body of [for index, (user_id, member) in enumerate(members.items())],
    over the members still to visit. *)
Fixpoint draw_members (current_y index : Z) (members : pydict)
  : outcome (list (draw_op Image)) :=
  match members with
  | [] => Returns []
  | (user_id, member) :: rest =>
      bind
        match avatar_images !! user_id with
        | None => Returns []
        | Some data =>
            let x := x_pos index in
            let y := y_pos current_y index in
            let pasted :=
              match open_rgba data with
              | Some img =>
                  [Paste (resize img (avatar_size self) (avatar_size self)) x y]
              | None => []
              end in
            bind (get_font_name self) (fun fnt =>
            Returns (pasted ++
              [Text (Flt (Float.add (Float.of_int x)
                            (Float.truediv (avatar_size self) 2)))
                    (Int (y + avatar_size self + 2))
                    (display_name member) (200, 200, 200) fnt "mt"]))
        end
        (fun ops =>
           bind (draw_members current_y (index + 1) rest) (fun ops' =>
           Returns (ops ++ ops')))
  end.

(** The body of the second [for tier, members in tierlist.tiers.items()],
    over the tiers still to visit, with the running offset. *)
Fixpoint draw_tiers (tier_heights : Tier -> Z) (current_y : Z)
  (items : list (Tier * pydict)) : outcome (list (draw_op Image)) :=
  match items with
  | [] => Returns []
  | (tier, members) :: rest =>
      let row_h := tier_heights tier in
      let box :=
        Rectangle 0 current_y (label_width self) (current_y + row_h)
          (default (100, 100, 100) (tier_colors self !! Tier.name tier))
          (0, 0, 0) in
      let label :=
        Text (Flt (Float.truediv (label_width self) 2))
             (Flt (Float.add (Float.of_int current_y) (Float.truediv row_h 2)))
             (Tier.name tier) (0, 0, 0) (font_label self) "mm" in
      bind (draw_members current_y 0 members) (fun ops =>
      let separator :=
        Line 0 (current_y + row_h) (total_width self) (current_y + row_h)
          (0, 0, 0) 2 in
      bind (draw_tiers tier_heights (current_y + row_h) rest) (fun ops' =>
      Returns (box :: label :: ops ++ separator :: ops')))
  end.

(** The first loop of [_draw]: the height of every tier, and their sum. *)
Definition tier_heights (tierlist : Tierlist) (tier : Tier) : Z :=
  _calc_tier_height self (dict_len (tiers tierlist tier)).

Definition total_canvas_height (tierlist : Tierlist) : Z :=
  fold_left (fun total '(tier, members) =>
               total + _calc_tier_height self (dict_len members))
            (tiers_items tierlist) 0.

(** [TierlistRenderer._draw]; the PNG encoding of the canvas is left
    out. *)
Definition _draw (tierlist : Tierlist) : outcome (Canvas Image) :=
  bind (draw_tiers (tier_heights tierlist) 0 (tiers_items tierlist)) (fun ops =>
  Returns (mkCanvas (total_width self) (total_canvas_height tierlist)
             (30, 30, 30) ops)).
End Draw.

Arguments draw_members {BytesIO Image}.
Arguments draw_tiers {BytesIO Image}.
Arguments _draw {BytesIO Image}.

(** [TierlistRenderer.render], with the downloads done one after the other:
    [download url] is the payload of a response with status 200, [None]
    for any other status or an exception.  [asyncio.gather] returns the
    results in the order of the tasks, so the map is filled in that
    order. *)
Definition fetch_avatars {BytesIO : Type} (download : string -> option BytesIO)
  (tierlist : Tierlist) : gmap Z BytesIO :=
  fold_left (fun avatar_images '(uid, member) =>
               match download (avatar_url member) with
               | Some data => <[uid := data]> avatar_images
               | None => avatar_images
               end)
            (concat (map snd (tiers_items tierlist))) ∅.

Definition render {BytesIO Image : Type} (open_rgba : BytesIO -> option Image)
  (resize : Image -> Z -> Z -> Image) (self : TierlistRenderer)
  (download : string -> option BytesIO) (tierlist : Tierlist)
  : outcome (Canvas Image) :=
  _draw open_rgba resize self (fetch_avatars download tierlist) tierlist.


(** ** The asset fetcher and the commands *)

(** What [session.get(url)] gives [_download]: a response with its status
    and, from [resp.read()], its body ([None] when reading raises), or an
    exception (bad URL, connection error, timeout). *)
Inductive http_result (BytesIO : Type) : Type :=
| Response (status : Z) (read : option BytesIO)
| GetRaises.
Arguments Response {BytesIO} status read.
Arguments GetRaises {BytesIO}.

(** [TierlistRenderer._download]: the bare [except] swallows every
    exception, so the call always returns a pair. *)
Definition _download {BytesIO : Type} (session : string -> http_result BytesIO)
  (user_id : Z) (url : string) : Z * option BytesIO :=
  match session url with
  | Response status read =>
      if status =? 200 then
        match read with
        | Some data => (user_id, Some data)
        | None => (user_id, None)
        end
      else (user_id, None)
  | GetRaises => (user_id, None)
  end.

(** The first half of [render] as written: one task per member, in the
    order of [tierlist.tiers.values()] and of each tier's items, the
    results of [asyncio.gather] in the order of the tasks, and the loop
    [for uid, data in results: if data: avatar_images[uid] = data]. *)
Definition download_tasks (tierlist : Tierlist) : list (Z * string) :=
  map (fun '(uid, member) => (uid, avatar_url member))
      (concat (map snd (tiers_items tierlist))).

Definition gather_downloads {BytesIO : Type}
  (session : string -> http_result BytesIO) (tierlist : Tierlist)
  : list (Z * option BytesIO) :=
  map (fun '(uid, url) => _download session uid url) (download_tasks tierlist).

Definition collect_avatars {BytesIO : Type}
  (results : list (Z * option BytesIO)) : gmap Z BytesIO :=
  fold_left (fun avatar_images '(uid, data) =>
               match data with
               | Some d => <[uid := d]> avatar_images
               | None => avatar_images
               end)
            results ∅.

(** [result.name] *)
Definition TierlistError_name (e : TierlistError) : string :=
  match e with
  | SUCCESS => "SUCCESS"
  | USER_NOT_FOUND => "USER_NOT_FOUND"
  | INVALID_TIER => "INVALID_TIER"
  | TIERLIST_NOT_ACTIVE => "TIERLIST_NOT_ACTIVE"
  | TIERLIST_ALREADY_ACTIVE => "TIERLIST_ALREADY_ACTIVE"
  end.

(** [Tier[name]]: the member of that name, [None] for the [KeyError]. *)
Definition Tier_by_name (name : string) : option Tier :=
  List.find (fun tier => String.eqb (Tier.name tier) name) Tier.all.

(** What the commands read of a [discord.Member]. *)
Module discord.
Record Member : Type := mkMember {
  id : Z;
  display_name : string;
  display_avatar_url : string
}.
End discord.

(** What a command answers: [interaction.response.send_message(content,
    ephemeral=True)], or, for [show], the deferred answer followed by
    [interaction.followup.send(file=discord.File(image_buffer, filename))]. *)
Inductive response (Image : Type) : Type :=
| send_message (content : string)
| send_file (filename : string) (image_buffer : Canvas Image).
Arguments send_message {Image} content.
Arguments send_file {Image} filename image_buffer.

(** The command handlers.  The module-level [manager] is threaded through:
    a handler takes the manager as it is and yields its answer with the
    manager afterwards. *)
Definition hello_command {Image : Type} : response Image :=
  send_message "Hello!".

Definition begin_command {Image : Type} (manager : TierlistManager)
  (name : string) : outcome (response Image * TierlistManager) :=
  bind (begin_tierlist manager name) (fun '(result, manager') =>
  Returns (send_message ("Result: " +:+ TierlistError_name result), manager')).

Definition end_command {Image : Type} (manager : TierlistManager)
  : outcome (response Image * TierlistManager) :=
  bind (end_tierlist manager) (fun '(result, manager') =>
  Returns (send_message ("Result: " +:+ TierlistError_name result), manager')).

Definition add_command {Image : Type} (manager : TierlistManager)
  (member : discord.Member) (tier_value : string)
  : outcome (response Image * TierlistManager) :=
  match Tier_by_name tier_value with
  | None => Returns (send_message "Invalid Tier.", manager)
  | Some target_tier =>
      let user_data :=
        mkMember (discord.display_name member)
                 (discord.display_avatar_url member) in
      bind (add_to_tierlist manager (discord.id member) user_data
              (TierMember target_tier))
           (fun '(result, manager') =>
      match result with
      | SUCCESS =>
          Returns (send_message ("Added " +:+ discord.display_name member
                                 +:+ " to Tier " +:+ Tier.name target_tier),
                   manager')
      | _ =>
          Returns (send_message ("Error: " +:+ TierlistError_name result),
                   manager')
      end)
  end.

Definition remove_command {Image : Type} (manager : TierlistManager)
  (member : discord.Member) : outcome (response Image * TierlistManager) :=
  bind (remove_from_tierlist manager (discord.id member))
       (fun '(result, manager') =>
  Returns (send_message ("Result: " +:+ TierlistError_name result), manager')).

(** [show]: [not manager.currently_active] holds for [None] and for the
    empty name; the manager is only read. *)
Definition show_command {BytesIO Image : Type}
  (open_rgba : BytesIO -> option Image) (resize : Image -> Z -> Z -> Image)
  (renderer : TierlistRenderer) (session : string -> http_result BytesIO)
  (manager : TierlistManager) : outcome (response Image) :=
  match currently_active manager with
  | None => Returns (send_message "No active tierlist.")
  | Some active =>
      if String.eqb active EmptyString then Returns (send_message "No active tierlist.")
      else
        match tierlists manager !! active with
        | None => Raises KeyError
        | Some active_list =>
            bind (render open_rgba resize renderer
                    (fun url => snd (_download session 0 url)) active_list)
                 (fun image_buffer =>
            Returns (send_file "tierlist.png" image_buffer))
        end
  end.

(** ** Notions used by the statements *)

(** [_id in self.tiers[tier]] *)
Definition holds (self : Tierlist) (tier : Tier) (_id : Z) : Prop :=
  dict_contains _id (tiers self tier) = true.

(** The uniqueness invariant: an identifier is in at most one tier. *)
Definition in_at_most_one_tier (self : Tierlist) : Prop :=
  forall _id t1 t2, holds self t1 _id -> holds self t2 _id -> t1 = t2.

(** The first tier of [todo] that holds [_id]: the one the deletion loop
    stops at. *)
Fixpoint first_holder (self : Tierlist) (_id : Z) (todo : list Tier)
  : option Tier :=
  match todo with
  | [] => None
  | tier :: rest =>
      if dict_contains _id (tiers self tier) then Some tier
      else first_holder self _id rest
  end.

(** Every tier's dictionary has distinct keys, as a Python dictionary
    does. *)
Definition keys_distinct (self : Tierlist) : Prop :=
  forall t, NoDup (map fst (tiers self t)).

(** The exact ceiling of [a / b], for [0 < b]. *)
Definition exact_ceil_div (a b : Z) : Z := - ((- a) / b).

(** The running offset [current_y] of the second loop of [_draw] when it
    reaches [tier]: the heights of the tiers before it. *)
Fixpoint band_top (tier_heights : Tier -> Z) (current_y : Z)
  (todo : list Tier) (tier : Tier) : Z :=
  match todo with
  | [] => current_y
  | t :: rest =>
      if Tier.eqb t tier then current_y
      else band_top tier_heights (current_y + tier_heights t) rest tier
  end.

(** An avatar pasted at grid position [(x, y)], and a text anchored where
    the name label of that grid position goes. *)
Definition is_avatar_at {Image : Type} (x y : Z) (op : draw_op Image) : Prop :=
  match op with
  | Paste _ x' y' => x' = x /\ y' = y
  | _ => False
  end.

Definition is_name_label_at {Image : Type} (self : TierlistRenderer)
  (x y : Z) (op : draw_op Image) : Prop :=
  match op with
  | Text tx ty _ _ _ _ =>
      tx = Flt (Float.add (Float.of_int x) (Float.truediv (avatar_size self) 2)) /\
      ty = Int (y + avatar_size self + 2)
  | _ => False
  end.

(** A text operation showing [s]. *)
Definition shows_text {Image : Type} (s : string) (op : draw_op Image) : Prop :=
  match op with
  | Text _ _ s' _ _ _ => s' = s
  | _ => False
  end.

(** The manager invariant: the active name is a key of [tierlists]. *)
Definition active_is_key (self : TierlistManager) : Prop :=
  forall active, currently_active self = Some active ->
                 is_Some (tierlists self !! active).


(** What a tierlist built by calls satisfies: an identifier is in at most
    one tier, and once in it. *)
Definition well_formed (self : Tierlist) : Prop :=
  in_at_most_one_tier self /\ keys_distinct self.

(** The number of members of a tierlist, over all tiers. *)
Definition total_members (self : Tierlist) : Z :=
  dict_len (tiers self Tier.S) + dict_len (tiers self Tier.A)
  + dict_len (tiers self Tier.B) + dict_len (tiers self Tier.C)
  + dict_len (tiers self Tier.D) + dict_len (tiers self Tier.F).

(** Some tier holds the identifier. *)
Definition is_member (self : Tierlist) (_id : Z) : Prop :=
  exists tier, holds self tier _id.

(** The members of all tiers, in drawing order. *)
Definition all_members (self : Tierlist) : pydict :=
  concat (map snd (tiers_items self)).

(** The corners of the rectangles and of the lines among drawing
    operations, in order. *)
Definition box_of {Image : Type} (op : draw_op Image) : option (Z * Z * Z * Z) :=
  match op with
  | Rectangle x0 y0 x1 y1 _ _ => Some (x0, y0, x1, y1)
  | _ => None
  end.

Definition line_of {Image : Type} (op : draw_op Image) : option (Z * Z * Z * Z) :=
  match op with
  | Line x0 y0 x1 y1 _ _ => Some (x0, y0, x1, y1)
  | _ => None
  end.

(** The bands of the tiers still to draw, from the offset reached: top and
    bottom of each. *)
Fixpoint bands (tier_heights : Tier -> Z) (current_y : Z) (todo : list Tier)
  : list (Z * Z) :=
  match todo with
  | [] => []
  | t :: rest =>
      (current_y, current_y + tier_heights t)
      :: bands tier_heights (current_y + tier_heights t) rest
  end.

(** A pasted avatar; a name label (the texts anchored "mt"; tier labels are
    anchored "mm"). *)
Definition is_paste {Image : Type} (op : draw_op Image) : bool :=
  match op with Paste _ _ _ => true | _ => false end.

Definition is_name_label {Image : Type} (op : draw_op Image) : bool :=
  match op with
  | Text _ _ _ _ _ anchor => String.eqb anchor "mt"
  | _ => false
  end.

(** The members whose avatar was fetched, and those whose avatar also
    decodes. *)
Definition fetched {BytesIO : Type} (avatar_images : gmap Z BytesIO)
  (entry : Z * Member) : bool :=
  match avatar_images !! fst entry with Some _ => true | None => false end.

Definition decoded {BytesIO Image : Type} (open_rgba : BytesIO -> option Image)
  (avatar_images : gmap Z BytesIO) (entry : Z * Member) : bool :=
  match avatar_images !! fst entry with
  | Some data => match open_rgba data with Some _ => true | None => false end
  | None => false
  end.




(** ** Tierlist: lemmas *)

Section TierlistFacts.
Implicit Types (self : Tierlist) (d : pydict) (k i : Z) (t : Tier).

Lemma tiers_set_tier_eq self t d : tiers (set_tier self t d) t = d.
Proof. destruct t; reflexivity. Qed.

Lemma tiers_set_tier_ne self t t' d :
  t <> t' -> tiers (set_tier self t d) t' = tiers self t'.
Proof. destruct t, t'; intros H; try reflexivity; congruence. Qed.

Lemma set_tier_same self t : set_tier self t (tiers self t) = self.
Proof. destruct self, t; reflexivity. Qed.

Lemma tier_eq_dec (t t' : Tier) : {t = t'} + {t <> t'}.
Proof. decide equality. Qed.

Lemma dict_contains_del k i d :
  dict_contains k (dict_del i d) = negb (k =? i) && dict_contains k d.
Proof.
  induction d as [|[k' v] d IH]; simpl.
  - now rewrite andb_false_r.
  - destruct (Z.eqb_spec k' i) as [->|Hne]; simpl.
    + rewrite IH. destruct (Z.eqb_spec i k) as [->|Hik].
      * now rewrite Z.eqb_refl.
      * reflexivity.
    + rewrite IH. destruct (Z.eqb_spec k' k) as [->|Hk].
      * destruct (Z.eqb_spec k i); [congruence | reflexivity].
      * reflexivity.
Qed.

Lemma dict_contains_set k i v d :
  dict_contains k (dict_set i v d) = (k =? i) || dict_contains k d.
Proof.
  induction d as [|[k' v'] d IH]; simpl.
  - rewrite (Z.eqb_sym i k). now destruct (k =? i).
  - destruct (Z.eqb_spec k' i) as [->|Hne]; simpl.
    + rewrite (Z.eqb_sym i k). now destruct (k =? i).
    + rewrite IH. destruct (Z.eqb_spec k' k) as [->|Hk].
      * now rewrite orb_true_r.
      * reflexivity.
Qed.

Lemma dict_get_del k i d :
  dict_get k (dict_del i d) = if k =? i then None else dict_get k d.
Proof.
  induction d as [|[k' v] d IH]; simpl.
  - now destruct (k =? i).
  - destruct (Z.eqb_spec k' i) as [->|Hne]; simpl.
    + rewrite IH. destruct (Z.eqb_spec k i) as [->|Hki].
      * reflexivity.
      * destruct (Z.eqb_spec i k); [congruence | reflexivity].
    + rewrite IH. destruct (Z.eqb_spec k' k) as [->|Hk].
      * destruct (Z.eqb_spec k i); [congruence | reflexivity].
      * reflexivity.
Qed.

Lemma dict_get_set k i v d :
  dict_get k (dict_set i v d) = if k =? i then Some v else dict_get k d.
Proof.
  induction d as [|[k' v'] d IH]; simpl.
  - rewrite (Z.eqb_sym i k). reflexivity.
  - destruct (Z.eqb_spec k' i) as [->|Hne]; simpl.
    + rewrite (Z.eqb_sym i k). now destruct (k =? i).
    + rewrite IH. destruct (Z.eqb_spec k' k) as [->|Hk].
      * destruct (Z.eqb_spec k i); [congruence | reflexivity].
      * reflexivity.
Qed.

Lemma dict_get_contains k d :
  dict_contains k d = true <-> is_Some (dict_get k d).
Proof.
  induction d as [|[k' v] d IH]; simpl.
  - split; [discriminate | intros [? ?]; discriminate].
  - destruct (k' =? k); [split; eauto | exact IH].
Qed.

(** A new key goes to the end of the dictionary. *)
Lemma dict_set_fresh k v d :
  dict_contains k d = false -> dict_set k v d = d ++ [(k, v)].
Proof.
  induction d as [|[k' v'] d IH]; simpl; [reflexivity|].
  destruct (k' =? k); [discriminate|]. intros H. now rewrite IH.
Qed.

Lemma dict_get_app_last k i v d :
  dict_get k (d ++ [(i, v)]) =
  match dict_get k d with Some x => Some x | None => if i =? k then Some v else None end.
Proof.
  induction d as [|[k' v'] d IH]; simpl; [reflexivity|].
  destruct (k' =? k); [reflexivity | exact IH].
Qed.

(** The deletion loop stops at the first holder, and only that tier
    changes. *)
Lemma delete_first_spec self i todo :
  delete_first self i todo =
  match first_holder self i todo with
  | Some t => (true, set_tier self t (dict_del i (tiers self t)))
  | None => (false, self)
  end.
Proof.
  induction todo as [|t rest IH]; simpl; [reflexivity|].
  destruct (dict_contains i (tiers self t)); [reflexivity | exact IH].
Qed.

Lemma first_holder_holds self i todo t :
  first_holder self i todo = Some t -> holds self t i.
Proof.
  induction todo as [|t' rest IH]; simpl; [discriminate|].
  destruct (dict_contains i (tiers self t')) eqn:E; [|exact IH].
  intros [= <-]. exact E.
Qed.

Lemma first_holder_none self i t :
  first_holder self i Tier.all = None -> dict_contains i (tiers self t) = false.
Proof.
  unfold Tier.all. simpl.
  repeat match goal with
         | |- context [dict_contains i ?d] =>
             lazymatch goal with
             | |- (if dict_contains i d then _ else _) = _ -> _ =>
                 destruct (dict_contains i d) eqn:?; [discriminate|]
             end
         end.
  intros _. destruct t; assumption.
Qed.

(** After the loop no tier holds the identifier, provided it was in at most
    one tier before; other identifiers are where they were. *)
Lemma delete_first_clears self i t :
  in_at_most_one_tier self ->
  dict_contains i (tiers (snd (delete_first self i Tier.all)) t) = false.
Proof.
  intros Huniq. rewrite delete_first_spec.
  destruct (first_holder self i Tier.all) as [t0|] eqn:E; simpl.
  - destruct (tier_eq_dec t0 t) as [->|Hne].
    + rewrite tiers_set_tier_eq, dict_contains_del, Z.eqb_refl. reflexivity.
    + rewrite tiers_set_tier_ne by exact Hne.
      destruct (dict_contains i (tiers self t)) eqn:Ht; [|reflexivity].
      exfalso. apply Hne. apply (Huniq i); [|exact Ht].
      eapply first_holder_holds; eassumption.
  - now apply first_holder_none.
Qed.

Lemma delete_first_other self i k t :
  k <> i ->
  dict_contains k (tiers (snd (delete_first self i Tier.all)) t) =
  dict_contains k (tiers self t).
Proof.
  intros Hk. rewrite delete_first_spec.
  destruct (first_holder self i Tier.all) as [t0|]; simpl; [|reflexivity].
  destruct (tier_eq_dec t0 t) as [->|Hne].
  - rewrite tiers_set_tier_eq, dict_contains_del.
    destruct (Z.eqb_spec k i); [contradiction | reflexivity].
  - now rewrite tiers_set_tier_ne.
Qed.

Lemma delete_first_subset self i k t :
  dict_contains k (tiers (snd (delete_first self i Tier.all)) t) = true ->
  dict_contains k (tiers self t) = true.
Proof.
  rewrite delete_first_spec.
  destruct (first_holder self i Tier.all) as [t0|]; simpl; [|tauto].
  destruct (tier_eq_dec t0 t) as [->|Hne].
  - rewrite tiers_set_tier_eq, dict_contains_del.
    intros H. apply andb_true_iff in H. tauto.
  - now rewrite tiers_set_tier_ne.
Qed.

Lemma remove_member_unique self i :
  in_at_most_one_tier self -> in_at_most_one_tier (snd (remove_member self i)).
Proof.
  intros Huniq k t1 t2 H1 H2. unfold holds, remove_member in *.
  apply (Huniq k); unfold holds; eapply delete_first_subset; eassumption.
Qed.

Lemma add_member_unique self i v tv :
  in_at_most_one_tier self -> in_at_most_one_tier (snd (add_member self i v tv)).
Proof.
  intros Huniq. destruct tv as [target|repr]; simpl; [|exact Huniq].
  intros k t1 t2. unfold holds.
  set (self' := snd (delete_first self i Tier.all)).
  set (d := dict_set i v (tiers self' target)).
  assert (Hin : forall t,
             dict_contains k (tiers (set_tier self' target d) t) = true ->
             (k = i /\ t = target) \/
             (k <> i /\ dict_contains k (tiers self t) = true)).
  { intros t. destruct (tier_eq_dec target t) as [<-|Hne].
    - rewrite tiers_set_tier_eq. unfold d. rewrite dict_contains_set.
      destruct (Z.eqb_spec k i) as [->|Hk]; [auto|]. simpl. intros H. right.
      split; [exact Hk|]. unfold self' in H. now rewrite delete_first_other in H.
    - rewrite tiers_set_tier_ne by exact Hne.
      destruct (Z.eqb_spec k i) as [->|Hk].
      + unfold self'. now rewrite delete_first_clears.
      + unfold self'. rewrite delete_first_other by exact Hk. auto. }
  intros H1 H2. apply Hin in H1. apply Hin in H2.
  destruct H1 as [[E1 ->]|[Hk H1]], H2 as [[E2 ->]|[Hk2 H2]];
    try reflexivity; try contradiction.
  apply (Huniq k); assumption.
Qed.

Lemma Tierlist_init_unique : in_at_most_one_tier Tierlist_init.
Proof. intros k t1 t2 H. destruct t1; discriminate H. Qed.

Lemma run_calls_unique calls self :
  in_at_most_one_tier self -> in_at_most_one_tier (run_calls calls self).
Proof.
  unfold run_calls. revert self.
  induction calls as [|c calls IH]; intros self H; simpl; [exact H|].
  apply IH. destruct c; simpl.
  - now apply add_member_unique.
  - now apply remove_member_unique.
Qed.
End TierlistFacts.

(** ** Tierlist: the uniqueness invariant and re-adding a member *)

Section TierlistClaims.
Implicit Types (self : Tierlist) (d : pydict) (k i : Z) (t : Tier).

Lemma set_tier_set_tier self t d d' :
  set_tier (set_tier self t d) t d' = set_tier self t d'.
Proof. destruct t; reflexivity. Qed.

Lemma first_holder_unique self i t :
  in_at_most_one_tier self -> holds self t i ->
  first_holder self i Tier.all = Some t.
Proof.
  intros Huniq Ht.
  destruct (first_holder self i Tier.all) as [t0|] eqn:E.
  - f_equal. apply (Huniq i); [|exact Ht].
    eapply first_holder_holds; eassumption.
  - apply first_holder_none with (t := t) in E. unfold holds in Ht. congruence.
Qed.

Lemma dict_contains_keys k d :
  dict_contains k d = true <-> k ∈ map fst d.
Proof.
  induction d as [|[k' v] d IH]; simpl.
  - rewrite elem_of_nil. split; [discriminate | tauto].
  - rewrite elem_of_cons. destruct (Z.eqb_spec k' k) as [->|Hne]; [tauto|].
    rewrite IH. split; [tauto | intros [?|?]; [congruence | assumption]].
Qed.

Lemma dict_del_absent k d : dict_contains k d = false -> dict_del k d = d.
Proof.
  induction d as [|[k' v] d IH]; simpl; [reflexivity|].
  destruct (k' =? k); [discriminate|]. intros H. now rewrite IH.
Qed.

Lemma dict_del_app k d d' : dict_del k (d ++ d') = dict_del k d ++ dict_del k d'.
Proof.
  induction d as [|[k' v] d IH]; simpl; [reflexivity|].
  destruct (k' =? k); [exact IH | now rewrite IH].
Qed.

Lemma dict_del_keys k d x : x ∈ map fst (dict_del k d) -> x ∈ map fst d.
Proof.
  induction d as [|[k' v] d IH]; simpl; [tauto|].
  destruct (k' =? k); simpl; rewrite !elem_of_cons; tauto.
Qed.

Lemma dict_del_NoDup k d : NoDup (map fst d) -> NoDup (map fst (dict_del k d)).
Proof.
  induction d as [|[k' v] d IH]; simpl; [auto|].
  rewrite NoDup_cons. intros [Hnotin Hnd].
  destruct (k' =? k); [auto|]. simpl. rewrite NoDup_cons. split; [|auto].
  intros Hin. apply Hnotin. eapply dict_del_keys, Hin.
Qed.

Lemma dict_set_keys k v d :
  map fst (dict_set k v d) =
  if dict_contains k d then map fst d else map fst d ++ [k].
Proof.
  induction d as [|[k' v'] d IH]; simpl; [reflexivity|].
  destruct (Z.eqb_spec k' k) as [->|Hne]; simpl; [reflexivity|].
  rewrite IH. now destruct (dict_contains k d).
Qed.

Lemma dict_set_NoDup k v d : NoDup (map fst d) -> NoDup (map fst (dict_set k v d)).
Proof.
  intros H. rewrite dict_set_keys.
  destruct (dict_contains k d) eqn:E; [exact H|].
  rewrite NoDup_app. split; [exact H|]. split.
  - intros x Hx Hx'. apply dict_contains_keys in Hx.
    apply list_elem_of_singleton in Hx'. congruence.
  - apply NoDup_singleton.
Qed.

Lemma set_tier_keys_distinct self t d :
  keys_distinct self -> NoDup (map fst d) -> keys_distinct (set_tier self t d).
Proof.
  intros H Hd t'. destruct (tier_eq_dec t t') as [<-|Hne].
  - now rewrite tiers_set_tier_eq.
  - rewrite tiers_set_tier_ne by exact Hne. apply H.
Qed.

Lemma delete_first_keys_distinct self i todo :
  keys_distinct self -> keys_distinct (snd (delete_first self i todo)).
Proof.
  intros H. rewrite delete_first_spec.
  destruct (first_holder self i todo) as [t0|]; simpl; [|exact H].
  apply set_tier_keys_distinct; [exact H|]. apply dict_del_NoDup, H.
Qed.

Lemma run_calls_keys_distinct calls self :
  keys_distinct self -> keys_distinct (run_calls calls self).
Proof.
  unfold run_calls. revert self.
  induction calls as [|c calls IH]; intros self H; cbn [fold_left]; [exact H|].
  apply IH. destruct c as [i v [target|repr]|i];
    unfold run_call, add_member, remove_member; cbn [snd].
  - apply set_tier_keys_distinct.
    + now apply delete_first_keys_distinct.
    + apply dict_set_NoDup. now apply delete_first_keys_distinct.
  - exact H.
  - now apply delete_first_keys_distinct.
Qed.

Lemma Tierlist_init_keys_distinct : keys_distinct Tierlist_init.
Proof. intros t. destruct t; apply NoDup_nil_2. Qed.
End TierlistClaims.

(** C1.  In every state reached from the empty tierlist by calls of
    [add_member] and [remove_member], an identifier is held by at most one
    tier; and adding an identifier to [T1] and then to a different tier
    [T2] leaves it in [T2] (with the second data) and not in [T1]. *)
Theorem member_in_at_most_one_tier (calls : list tierlist_call) :
  let self := run_calls calls Tierlist_init in
  (forall _id t1 t2, holds self t1 _id -> holds self t2 _id -> t1 = t2) /\
  (forall _id d1 d2 T1 T2,
      T1 <> T2 ->
      let self1 := snd (add_member self _id d1 (TierMember T1)) in
      let self2 := snd (add_member self1 _id d2 (TierMember T2)) in
      holds self2 T2 _id /\
      dict_get _id (tiers self2 T2) = Some d2 /\
      dict_contains _id (tiers self2 T1) = false).
Proof.
  intros self.
  assert (Huniq : in_at_most_one_tier self)
    by apply run_calls_unique, Tierlist_init_unique.
  split; [exact Huniq|].
  intros i d1 d2 T1 T2 Hne self1 self2.
  assert (Huniq1 : in_at_most_one_tier self1) by now apply add_member_unique.
  unfold self2, add_member, holds. cbn [snd].
  rewrite tiers_set_tier_eq, dict_contains_set, dict_get_set, Z.eqb_refl.
  repeat split.
  rewrite tiers_set_tier_ne by congruence.
  now apply delete_first_clears.
Qed.

(** The invariant and the move from S to A, on a tierlist that holds
    identifier 1 in B. *)
Lemma member_in_at_most_one_tier_witness :
  let alice := mkMember "Alice" "uri1" in
  let self := run_calls [CallAdd 1 alice (TierMember Tier.B)] Tierlist_init in
  (holds self Tier.B 1 /\ Tier.B = Tier.B) /\
  (Tier.S <> Tier.A /\
   let self2 :=
     snd (add_member (snd (add_member self 1 alice (TierMember Tier.S)))
            1 alice (TierMember Tier.A)) in
   holds self2 Tier.A 1 /\
   dict_get 1 (tiers self2 Tier.A) = Some alice /\
   dict_contains 1 (tiers self2 Tier.S) = false).
Proof.
  intros alice self.
  pose proof (member_in_at_most_one_tier
                [CallAdd 1 alice (TierMember Tier.B)]) as [H1 H2].
  split.
  - split; [reflexivity|]. apply (H1 1); reflexivity.
  - split; [discriminate|]. apply H2. discriminate.
Defined.

(** C3, as stated, fails: after [1] and [2] were added to tier S, adding
    [1] to S again with the same data changes the state, [1] now comes
    after [2] in the order the grid is laid out in. *)
Lemma readd_same_tier_changes_order :
  let alice := mkMember "Alice" "uri1" in
  let bob := mkMember "Bob" "uri2" in
  let self := run_calls [CallAdd 1 alice (TierMember Tier.S);
                         CallAdd 2 bob (TierMember Tier.S)] Tierlist_init in
  let self' := snd (add_member self 1 alice (TierMember Tier.S)) in
  dict_get 1 (tiers self Tier.S) = Some alice /\
  tiers self Tier.S = [(1, alice); (2, bob)] /\
  tiers self' Tier.S = [(2, bob); (1, alice)] /\
  self' <> self.
Proof.
  repeat split. intros H. discriminate H.
Qed.

(** C3, amended.  In a state reached from the empty tierlist, adding [_id]
    with data [d] to the tier [T] that already holds it with [d] returns
    [True] and is a deletion followed by an insertion: [_id] moves to the
    end of [T]'s order, the other tiers are untouched, every tier maps the
    same identifiers to the same data as before, and the state is the one
    before the call exactly when [_id] was the last member of [T]. *)
Theorem readd_same_tier_moves_last (calls : list tierlist_call) _id d T :
  let self := run_calls calls Tierlist_init in
  dict_get _id (tiers self T) = Some d ->
  let result := add_member self _id d (TierMember T) in
  result = (true, set_tier self T (dict_del _id (tiers self T) ++ [(_id, d)])) /\
  (forall t k, dict_get k (tiers (snd result) t) = dict_get k (tiers self t)) /\
  (snd result = self <-> exists pre, tiers self T = pre ++ [(_id, d)]).
Proof.
  intros self Hget result.
  assert (Huniq : in_at_most_one_tier self)
    by apply run_calls_unique, Tierlist_init_unique.
  assert (Hkeys : keys_distinct self)
    by apply run_calls_keys_distinct, Tierlist_init_keys_distinct.
  assert (Hholds : holds self T _id).
  { apply dict_get_contains. rewrite Hget. eauto. }
  assert (Hres : result =
            (true, set_tier self T (dict_del _id (tiers self T) ++ [(_id, d)]))).
  { unfold result, add_member. rewrite delete_first_spec.
    rewrite (first_holder_unique self _id T Huniq Hholds). cbn [snd].
    rewrite tiers_set_tier_eq, set_tier_set_tier. f_equal. f_equal.
    apply dict_set_fresh. rewrite dict_contains_del, Z.eqb_refl. reflexivity. }
  split; [exact Hres|]. rewrite Hres. cbn [snd]. split.
  - intros t k. destruct (tier_eq_dec T t) as [<-|Hne].
    + rewrite tiers_set_tier_eq, dict_get_app_last, dict_get_del.
      destruct (Z.eqb_spec k _id) as [->|Hk].
      * rewrite Z.eqb_refl. now rewrite Hget.
      * destruct (dict_get k (tiers self T)); [reflexivity|].
        destruct (Z.eqb_spec _id k); [congruence | reflexivity].
    + now rewrite tiers_set_tier_ne.
  - split.
    + intros Heq. exists (dict_del _id (tiers self T)).
      rewrite <- Heq at 1. now rewrite tiers_set_tier_eq.
    + intros [pre Hpre].
      transitivity (set_tier self T (tiers self T)); [f_equal | apply set_tier_same].
      rewrite Hpre, dict_del_app. simpl. rewrite Z.eqb_refl, app_nil_r.
      f_equal. apply dict_del_absent.
      destruct (dict_contains _id pre) eqn:E; [|reflexivity].
      apply dict_contains_keys in E.
      specialize (Hkeys T). rewrite Hpre, map_app in Hkeys.
      apply NoDup_app in Hkeys as (_ & Hdisj & _).
      exfalso. apply (Hdisj _id E). simpl. apply list_elem_of_singleton. reflexivity.
Qed.

(** Re-adding the first of two members of S. *)
Lemma readd_same_tier_moves_last_witness :
  let alice := mkMember "Alice" "uri1" in
  let bob := mkMember "Bob" "uri2" in
  let calls := [CallAdd 1 alice (TierMember Tier.S);
                CallAdd 2 bob (TierMember Tier.S)] in
  let self := run_calls calls Tierlist_init in
  dict_get 1 (tiers self Tier.S) = Some alice /\
  add_member self 1 alice (TierMember Tier.S) =
    (true, set_tier self Tier.S (dict_del 1 (tiers self Tier.S) ++ [(1, alice)])).
Proof.
  intros alice bob calls self. split; [reflexivity|].
  apply (readd_same_tier_moves_last calls 1 alice Tier.S). reflexivity.
Defined.

(** ** TierlistManager: error codes and the active-list invariant *)

Section ManagerFacts.
Implicit Types (self : TierlistManager) (c : manager_call).

Lemma TierlistManager_init_active_is_key : active_is_key TierlistManager_init.
Proof. intros active H. discriminate H. Qed.

(** Writing back the object found under the active name keeps the key
    set: a lookup of the active name still succeeds. *)
Lemma write_back_active_is_key (m : gmap string Tierlist) active tl :
  active_is_key (mkManager (<[active := tl]> m) (Some active)).
Proof.
  intros a [= <-]. simpl. rewrite lookup_insert_eq. eauto.
Qed.

Lemma write_back_same self active tl :
  currently_active self = Some active ->
  tierlists self !! active = Some tl ->
  mkManager (<[active := tl]> (tierlists self)) (Some active) = self.
Proof.
  destruct self as [m a]; simpl. intros -> H. now rewrite insert_id.
Qed.

(** Every operation returns, with one of the five codes, and keeps the
    invariant. *)
Lemma manager_step_total self c :
  active_is_key self ->
  exists code self',
    manager_step self c = Returns (code, self') /\ active_is_key self'.
Proof.
  intros Hinv. destruct c as [n| |i d tv|i]; simpl.
  - unfold begin_tierlist.
    destruct (currently_active self) as [a|] eqn:Ha; [eauto|].
    destruct (tierlists self !! n) as [tl|] eqn:Hn.
    + eexists _, _. split; [reflexivity|]. intros a [= <-]. simpl. eauto.
    + eexists _, _. split; [reflexivity|]. apply write_back_active_is_key.
  - unfold end_tierlist.
    destruct (currently_active self) as [a|] eqn:Ha; [|eauto].
    eexists _, _. split; [reflexivity|]. intros a' H. discriminate H.
  - unfold add_to_tierlist.
    destruct (currently_active self) as [a|] eqn:Ha; [|eauto].
    destruct (Hinv a Ha) as [tl ->].
    destruct (add_member tl i d tv) as [ok tl'].
    destruct ok; simpl; eexists _, _;
      (split; [reflexivity | apply write_back_active_is_key]).
  - unfold remove_from_tierlist.
    destruct (currently_active self) as [a|] eqn:Ha; [|eauto].
    destruct (Hinv a Ha) as [tl ->].
    destruct (remove_member tl i) as [found tl'].
    destruct found; simpl; eexists _, _;
      (split; [reflexivity | apply write_back_active_is_key]).
Qed.

Lemma manager_run_total calls self :
  active_is_key self ->
  exists self', manager_run self calls = Returns self' /\ active_is_key self'.
Proof.
  revert self. induction calls as [|c calls IH]; intros self Hinv; simpl.
  - eauto.
  - destruct (manager_step_total self c Hinv) as (code & self' & -> & Hinv').
    apply IH, Hinv'.
Qed.

Lemma manager_run_active_is_key calls self' :
  manager_run TierlistManager_init calls = Returns self' -> active_is_key self'.
Proof.
  intros H.
  destruct (manager_run_total calls _ TierlistManager_init_active_is_key)
    as (m & Hm & Hinv).
  rewrite Hm in H. injection H as <-. exact Hinv.
Qed.




End ManagerFacts.

(** C4.  With a list active, [begin_tierlist] with any name returns
    [TIERLIST_ALREADY_ACTIVE] and leaves the manager as it was. *)
Theorem begin_tierlist_already_active (self : TierlistManager)
  (active name : string) :
  currently_active self = Some active ->
  begin_tierlist self name = Returns (TIERLIST_ALREADY_ACTIVE, self).
Proof.
  intros H. unfold begin_tierlist. now rewrite H.
Qed.

(** [begin] with the active name and with another name, while "test" is
    active. *)
Lemma begin_tierlist_already_active_witness :
  let self := mkManager (<["test"%string := Tierlist_init]> ∅) (Some "test"%string) in
  currently_active self = Some "test"%string /\
  begin_tierlist self "test" = Returns (TIERLIST_ALREADY_ACTIVE, self) /\
  begin_tierlist self "other" = Returns (TIERLIST_ALREADY_ACTIVE, self).
Proof.
  intros self. split; [reflexivity|]. split.
  - apply (begin_tierlist_already_active self "test" "test"). reflexivity.
  - apply (begin_tierlist_already_active self "test" "other"). reflexivity.
Defined.

(** C5.  With no list active, [end_tierlist], [add_to_tierlist] and
    [remove_from_tierlist] return [TIERLIST_NOT_ACTIVE] and leave the
    manager as it was. *)
Theorem operations_without_active_list (self : TierlistManager)
  (_id : Z) (_data : Member) (target_tier : tier_value) :
  currently_active self = None ->
  end_tierlist self = Returns (TIERLIST_NOT_ACTIVE, self) /\
  add_to_tierlist self _id _data target_tier = Returns (TIERLIST_NOT_ACTIVE, self) /\
  remove_from_tierlist self _id = Returns (TIERLIST_NOT_ACTIVE, self).
Proof.
  intros H. unfold end_tierlist, add_to_tierlist, remove_from_tierlist.
  now rewrite H.
Qed.

(** The three operations on a manager that owns a list and has none
    active. *)
Lemma operations_without_active_list_witness :
  let self := mkManager (<["test"%string := Tierlist_init]> ∅) None in
  let alice := mkMember "Alice" "uri1" in
  currently_active self = None /\
  end_tierlist self = Returns (TIERLIST_NOT_ACTIVE, self) /\
  add_to_tierlist self 1 alice (TierMember Tier.S)
    = Returns (TIERLIST_NOT_ACTIVE, self) /\
  remove_from_tierlist self 1 = Returns (TIERLIST_NOT_ACTIVE, self).
Proof.
  intros self alice. split; [reflexivity|].
  apply (operations_without_active_list self 1 alice (TierMember Tier.S)).
  reflexivity.
Defined.

(** C6.  What [add_to_tierlist] does with a tier value outside the six
    members of [Tier], in a manager state reached from [TierlistManager()]
    in which a list is active.  A member of another enumeration gives
    [INVALID_TIER] and leaves the manager as it was, on every interpreter.
    A value that is no enumeration member does not: on Python 3.8 to 3.11
    the guard [target_tier not in Tier] raises [TypeError] for it, no code
    is returned and the manager is left as it was; from Python 3.12 on it
    gives [INVALID_TIER], except for the integers 0 to 5, which pass the
    guard, so that the deletion loop runs and [self.tiers[target_tier]]
    raises [KeyError]. *)
Theorem add_to_tierlist_with_invalid_tier (calls : list manager_call)
  (self : TierlistManager) (active : string) (_id : Z) (_data : Member) :
  manager_run TierlistManager_init calls = Returns self ->
  currently_active self = Some active ->
  exists tl,
    tierlists self !! active = Some tl /\
    (forall py cls member,
        add_to_tierlist_untyped py self _id _data
          (PyEnum (OtherEnumMember cls member))
        = (Returns INVALID_TIER, self)) /\
    (forall s,
        add_to_tierlist_untyped Python_3_8_to_3_11 self _id _data (PyStr s)
        = (Raises TypeError, self)) /\
    (forall z,
        add_to_tierlist_untyped Python_3_8_to_3_11 self _id _data (PyInt z)
        = (Raises TypeError, self)) /\
    (forall s,
        add_to_tierlist_untyped Python_3_12 self _id _data (PyStr s)
        = (Returns INVALID_TIER, self)) /\
    (forall z, z < 0 \/ 5 < z ->
        add_to_tierlist_untyped Python_3_12 self _id _data (PyInt z)
        = (Returns INVALID_TIER, self)) /\
    (forall z, 0 <= z <= 5 ->
        add_to_tierlist_untyped Python_3_12 self _id _data (PyInt z)
        = (Raises KeyError,
           mkManager (<[active := snd (remove_member tl _id)]> (tierlists self))
             (Some active))).
Proof.
  intros Hrun Hactive.
  destruct (manager_run_active_is_key calls self Hrun active Hactive) as [tl Htl].
  pose proof (write_back_same self active tl Hactive Htl) as Hsame.
  exists tl. split; [exact Htl|].
  unfold add_to_tierlist_untyped, add_member_untyped. rewrite Hactive, Htl.
  repeat split; intros; cbn [Tier_contains in_Tier negb]; try now rewrite Hsame.
  - replace ((0 <=? z) && (z <=? 5)) with false by lia. now rewrite Hsame.
  - replace ((0 <=? z) && (z <=? 5)) with true by lia. reflexivity.
Qed.

(** After [begin("test")] and one valid [add]: the string ['Z'] and the
    integer [7] as tiers on Python 3.8 to 3.11, and the integer [0] for a
    member who is in the list on Python 3.12. *)
Lemma add_to_tierlist_with_invalid_tier_witness :
  let alice := mkMember "Alice" "uri1" in
  let calls := [Begin "test"; AddTo 1 alice (TierMember Tier.S)] in
  exists self,
    manager_run TierlistManager_init calls = Returns self /\
    currently_active self = Some "test"%string /\
    add_to_tierlist_untyped Python_3_8_to_3_11 self 2 alice (PyStr "Z")
    = (Raises TypeError, self) /\
    add_to_tierlist_untyped Python_3_8_to_3_11 self 2 alice (PyInt 7)
    = (Raises TypeError, self) /\
    add_to_tierlist_untyped Python_3_8_to_3_11 self 2 alice
      (PyEnum (OtherEnumMember "Color" "RED"))
    = (Returns INVALID_TIER, self) /\
    add_to_tierlist_untyped Python_3_12 self 1 alice (PyInt 0)
    = (Raises KeyError,
       mkManager (<["test"%string := Tierlist_init]> ∅) (Some "test"%string)).
Proof.
  intros alice calls.
  eexists. split; [reflexivity|]. split; [reflexivity|].
  destruct (add_to_tierlist_with_invalid_tier calls _ "test" 2 alice
              eq_refl eq_refl) as (tl & _ & Henum & Hstr & Hint & _).
  split; [apply Hstr|]. split; [apply Hint|]. split; [apply Henum|].
  reflexivity.
Defined.


(** ** binary64: rounding lemmas

    What the layout needs from the float model: rounding a quotient and
    taking [math.ceil] is monotone in the numerator, and it is the exact
    ceiling of the quotient by 7 for numerators up to [7 * 2^51]. *)

Section FloatFacts.
Implicit Types (n d e m : Z).

Lemma pow2_pos e : 0 <= e -> 0 < 2 ^ e.
Proof. intros H. now apply Z.pow_pos_nonneg. Qed.

(** [ratio_lt_pow2] compares [n / d] with [2 ^ e] whatever way the power is
    split between the two sides. *)
Lemma ratio_lt_pow2_scaled n d e a b :
  0 <= a -> 0 <= b -> b - a = e ->
  Float.ratio_lt_pow2 n d e = true <-> n * 2 ^ a < d * 2 ^ b.
Proof.
  intros Ha Hb He. unfold Float.ratio_lt_pow2.
  pose proof (pow2_pos a Ha) as Pa. pose proof (pow2_pos b Hb) as Pb.
  destruct (Z.leb_spec 0 e) as [Hle|Hlt].
  - replace b with (a + e) by lia. rewrite Z.pow_add_r by lia.
    pose proof (pow2_pos e Hle) as Pe. rewrite Z.ltb_lt. nia.
  - replace a with (b + - e) by lia. rewrite Z.pow_add_r by lia.
    assert (Pe : 0 < 2 ^ (- e)) by (apply pow2_pos; lia).
    rewrite Z.ltb_lt. nia.
Qed.

Lemma ratio_lt_pow2_mono n n' d e e' :
  0 < d -> n <= n' -> e <= e' ->
  Float.ratio_lt_pow2 n' d e = true -> Float.ratio_lt_pow2 n d e' = true.
Proof.
  intros Hd Hn He.
  set (a := Z.max 0 (- e)).
  rewrite (ratio_lt_pow2_scaled n' d e a (e + a)) by lia.
  rewrite (ratio_lt_pow2_scaled n d e' a (e' + a)) by lia.
  intros H.
  assert (Pa : 0 < 2 ^ a) by (apply pow2_pos; lia).
  assert (Hpow : 2 ^ (e + a) <= 2 ^ (e' + a)) by (apply Z.pow_le_mono_r; lia).
  nia.
Qed.

Lemma ilog2_ratio_spec n d :
  0 < n -> 0 < d ->
  Float.ratio_lt_pow2 n d (Float.ilog2_ratio n d) = false /\
  Float.ratio_lt_pow2 n d (Float.ilog2_ratio n d + 1) = true.
Proof.
  intros Hn Hd.
  pose proof (Z.log2_spec n Hn) as [Hn1 Hn2].
  pose proof (Z.log2_spec d Hd) as [Hd1 Hd2].
  pose proof (Z.log2_nonneg n) as Ln. pose proof (Z.log2_nonneg d) as Ld.
  set (ln := Z.log2 n) in *. set (ld := Z.log2 d) in *.
  assert (Pn : 0 < 2 ^ ln) by now apply pow2_pos.
  assert (Pd : 0 < 2 ^ ld) by now apply pow2_pos.
  assert (HA : Float.ratio_lt_pow2 n d (ln - ld + 1) = true).
  { apply (ratio_lt_pow2_scaled n d _ ld (Z.succ ln)); [lia..|]. nia. }
  assert (HB : Float.ratio_lt_pow2 n d (ln - ld - 1) = false).
  { apply not_true_is_false.
    rewrite (ratio_lt_pow2_scaled n d _ (Z.succ ld) ln) by lia. nia. }
  unfold Float.ilog2_ratio. fold ln ld.
  destruct (Float.ratio_lt_pow2 n d (ln - ld)) eqn:E.
  - split; [exact HB|]. now replace (ln - ld - 1 + 1) with (ln - ld) by lia.
  - split; [exact E | exact HA].
Qed.

Lemma ilog2_ratio_mono n n' d :
  0 < n -> 0 < d -> n <= n' ->
  Float.ilog2_ratio n d <= Float.ilog2_ratio n' d.
Proof.
  intros Hn Hd Hle.
  destruct (ilog2_ratio_spec n d Hn Hd) as [Hl _].
  destruct (ilog2_ratio_spec n' d ltac:(lia) Hd) as [_ Hl'].
  destruct (Z.le_gt_cases (Float.ilog2_ratio n d) (Float.ilog2_ratio n' d))
    as [H|H]; [exact H|].
  rewrite (ratio_lt_pow2_mono n n' d (Float.ilog2_ratio n' d + 1)
             (Float.ilog2_ratio n d) Hd Hle ltac:(lia) Hl') in Hl.
  discriminate Hl.
Qed.

(** An upper bound on the quotient bounds the exponent. *)
Lemma ilog2_ratio_lt n d e :
  0 < n -> 0 < d -> Float.ratio_lt_pow2 n d e = true ->
  Float.ilog2_ratio n d < e.
Proof.
  intros Hn Hd He.
  destruct (ilog2_ratio_spec n d Hn Hd) as [Hl _].
  destruct (Z.lt_ge_cases (Float.ilog2_ratio n d) e) as [H|H]; [exact H|].
  rewrite (ratio_lt_pow2_mono n n d e (Float.ilog2_ratio n d) Hd
             ltac:(lia) ltac:(lia) He) in Hl.
  discriminate Hl.
Qed.

Lemma nearest_even_bounds n d :
  0 < d -> n / d <= Float.nearest_even n d <= n / d + 1.
Proof.
  intros Hd. unfold Float.nearest_even.
  destruct (2 * (n mod d) <? d); [lia|].
  destruct (d <? 2 * (n mod d)); [lia|].
  destruct (Z.even (n / d)); lia.
Qed.

Lemma nearest_even_mono n n' d :
  0 < d -> n <= n' -> Float.nearest_even n d <= Float.nearest_even n' d.
Proof.
  intros Hd Hle.
  pose proof (Z.div_le_mono n n' d Hd Hle) as Hq.
  destruct (Z.eq_dec (n / d) (n' / d)) as [Heq|Hne].
  - assert (Hr : n mod d <= n' mod d).
    { rewrite !Z.mod_eq by lia. rewrite Heq. lia. }
    unfold Float.nearest_even. rewrite Heq.
    destruct (Z.ltb_spec (2 * (n mod d)) d), (Z.ltb_spec (2 * (n' mod d)) d),
      (Z.ltb_spec d (2 * (n mod d))), (Z.ltb_spec d (2 * (n' mod d)));
      destruct (Z.even (n' / d)); lia.
  - pose proof (nearest_even_bounds n d Hd). pose proof (nearest_even_bounds n' d Hd).
    lia.
Qed.

(** The scaled quotient lies in [[2^52, 2^53)], so its rounding lies in
    [[2^52, 2^53]]. *)
Lemma mantissa_bounds n d :
  0 < n -> 0 < d -> 2 ^ 52 <= Float.mantissa n d <= 2 ^ 53.
Proof.
  intros Hn Hd. unfold Float.mantissa, Float.exponent.
  destruct (ilog2_ratio_spec n d Hn Hd) as [Hlo Hhi].
  apply not_true_iff_false in Hlo.
  set (l := Float.ilog2_ratio n d) in *.
  destruct (Z.leb_spec 0 (l - 52)) as [He|He].
  - assert (Pe : 0 < 2 ^ (l - 52)) by now apply pow2_pos.
    rewrite (ratio_lt_pow2_scaled n d l 0 l) in Hlo by lia.
    rewrite (ratio_lt_pow2_scaled n d (l + 1) 0 (l + 1)) in Hhi by lia.
    replace l with ((l - 52) + 52) in Hlo at 1 by lia.
    replace (l + 1) with ((l - 52) + 53) in Hhi by lia.
    rewrite Z.pow_add_r in Hlo, Hhi by lia. rewrite Z.pow_0_r in Hlo, Hhi.
    set (D := d * 2 ^ (l - 52)) in *.
    assert (HD : 0 < D) by (unfold D; nia).
    pose proof (nearest_even_bounds n D HD) as Hb.
    assert (2 ^ 52 <= n / D) by (apply Z.div_le_lower_bound; nia).
    assert (n / D < 2 ^ 53) by (apply Z.div_lt_upper_bound; nia).
    lia.
  - assert (Pe : 0 < 2 ^ (- (l - 52))) by (apply pow2_pos; lia).
    rewrite (ratio_lt_pow2_scaled n d l (- (l - 52)) 52) in Hlo by lia.
    rewrite (ratio_lt_pow2_scaled n d (l + 1) (- (l - 52)) 53) in Hhi by lia.
    set (N := n * 2 ^ (- (l - 52))) in *.
    pose proof (nearest_even_bounds N d Hd) as Hb.
    assert (2 ^ 52 <= N / d) by (apply Z.div_le_lower_bound; lia).
    assert (N / d < 2 ^ 53) by (apply Z.div_lt_upper_bound; lia).
    lia.
Qed.

(** [math.ceil] does not see the renormalisation. *)
Lemma ceil_normalise m e :
  Float.ceil (Float.normalise m e) = Float.ceil (Float.mk m e).
Proof.
  unfold Float.normalise. destruct (Z.eqb_spec m (2 ^ 53)) as [->|]; [|reflexivity].
  unfold Float.ceil. cbn [Float.mant Float.expo].
  destruct (Z.leb_spec 0 e) as [He|He].
  - destruct (Z.leb_spec 0 (e + 1)); [|lia].
    rewrite Z.pow_add_r by lia. change (2 ^ 53) with (2 ^ 52 * 2 ^ 1). lia.
  - destruct (Z.leb_spec 0 (e + 1)) as [He1|He1].
    + assert (e = -1) as -> by lia. reflexivity.
    + f_equal. replace (- e) with (1 + - (e + 1)) by lia.
      rewrite Z.pow_add_r by lia.
      assert (0 < 2 ^ (- (e + 1))) by (apply pow2_pos; lia).
      change (- 2 ^ 53) with (2 ^ 1 * - 2 ^ 52).
      rewrite Z.div_mul_cancel_l by lia. reflexivity.
Qed.

Lemma ceil_mono_mant m m' e :
  m <= m' -> Float.ceil (Float.mk m e) <= Float.ceil (Float.mk m' e).
Proof.
  intros H. unfold Float.ceil. cbn [Float.mant Float.expo].
  destruct (Z.leb_spec 0 e) as [He|He].
  - assert (0 < 2 ^ e) by now apply pow2_pos. nia.
  - assert (0 < 2 ^ (- e)) by (apply pow2_pos; lia).
    apply Z.opp_le_mono. rewrite !Z.opp_involutive.
    apply Z.div_le_mono; lia.
Qed.

(** [2^52 * 2^e], the least number of exponent [e], grows with [e]. *)
Lemma ceil_mono_expo e e' :
  e <= e' ->
  Float.ceil (Float.mk (2 ^ 52) e) <= Float.ceil (Float.mk (2 ^ 52) e').
Proof.
  intros H. pattern e'. apply (Zlt_lower_bound_ind _ e); [|exact H].
  clear e' H. intros x IH Hx.
  destruct (Z.eq_dec x e) as [->|Hne]; [lia|].
  transitivity (Float.ceil (Float.mk (2 ^ 52) (x - 1))); [apply IH; lia|].
  transitivity (Float.ceil (Float.mk (2 ^ 53) (x - 1))).
  - apply ceil_mono_mant. lia.
  - rewrite <- (ceil_normalise (2 ^ 53) (x - 1)). unfold Float.normalise.
    rewrite Z.eqb_refl. replace (x - 1 + 1) with x by lia. lia.
Qed.

(** Rounding to binary64 and then up to an integer is monotone in the
    numerator. *)
Lemma ceil_round_pos_mono n n' d :
  0 < n -> 0 < d -> n <= n' ->
  Float.ceil (Float.round_pos n d) <= Float.ceil (Float.round_pos n' d).
Proof.
  intros Hn Hd Hle. unfold Float.round_pos. rewrite !ceil_normalise.
  pose proof (ilog2_ratio_mono n n' d Hn Hd Hle) as He.
  pose proof (mantissa_bounds n d Hn Hd) as Hm.
  pose proof (mantissa_bounds n' d ltac:(lia) Hd) as Hm'.
  destruct (Z.eq_dec (Float.exponent n d) (Float.exponent n' d)) as [Heq|Hne].
  - rewrite <- Heq. apply ceil_mono_mant.
    unfold Float.mantissa. rewrite <- Heq.
    destruct (Z.leb_spec 0 (Float.exponent n d)) as [H0|H0].
    + assert (0 < 2 ^ Float.exponent n d) by now apply pow2_pos.
      apply nearest_even_mono; [nia | exact Hle].
    + assert (0 < 2 ^ (- Float.exponent n d)) by (apply pow2_pos; lia).
      apply nearest_even_mono; [exact Hd | nia].
  - assert (Hlt : Float.exponent n d + 1 <= Float.exponent n' d)
      by (unfold Float.exponent in *; lia).
    transitivity (Float.ceil (Float.mk (2 ^ 53) (Float.exponent n d)));
      [apply ceil_mono_mant; lia|].
    transitivity (Float.ceil (Float.mk (2 ^ 52) (Float.exponent n d + 1))).
    { rewrite <- (ceil_normalise (2 ^ 53)). unfold Float.normalise.
      rewrite Z.eqb_refl. lia. }
    transitivity (Float.ceil (Float.mk (2 ^ 52) (Float.exponent n' d)));
      [now apply ceil_mono_expo | apply ceil_mono_mant; lia].
Qed.

(** Sevenths scaled by at least 4 round to the right side of every
    multiple of the scale: the ceiling survives the rounding. *)
Lemma ceil_nearest_even_sevenths n p :
  0 < n -> 4 <= p ->
  - ((- Float.nearest_even (n * p) 7) / p) = exact_ceil_div n 7.
Proof.
  intros Hn Hp. unfold exact_ceil_div, Float.nearest_even.
  pose proof (Z.div_mod n 7 ltac:(lia)) as Hdm.
  pose proof (Z.mod_pos_bound n 7 ltac:(lia)) as Hr.
  set (q := n / 7) in *. set (r := n mod 7) in *.
  pose proof (Z.div_mod (r * p) 7 ltac:(lia)) as Hdm'.
  pose proof (Z.mod_pos_bound (r * p) 7 ltac:(lia)) as Hw.
  set (u := r * p / 7) in *. set (w := (r * p) mod 7) in *.
  assert (Hnp : n * p = (q * p + u) * 7 + w) by lia.
  assert (Hq : n * p / 7 = q * p + u).
  { symmetry. apply (Z.div_unique_pos _ _ _ w); lia. }
  assert (Hm : (n * p) mod 7 = w).
  { symmetry. apply (Z.mod_unique_pos _ _ (q * p + u)); lia. }
  rewrite Hq, Hm.
  assert (Hdivn : - n / 7 = - q - (if r =? 0 then 0 else 1)).
  { symmetry. apply (Z.div_unique_pos _ _ _ (if r =? 0 then 0 else 7 - r));
      destruct (Z.eqb_spec r 0); lia. }
  rewrite Hdivn.
  set (m := if 2 * w <? 7 then q * p + u
            else if 7 <? 2 * w then q * p + u + 1
            else if Z.even (q * p + u) then q * p + u else q * p + u + 1).
  destruct (Z.eqb_spec r 0) as [Hr0|Hr0].
  - assert (u = 0 /\ w = 0) as [Hu0 Hw0] by (rewrite Hr0 in Hdm'; lia).
    assert (m = q * p) as -> by (unfold m; rewrite Hw0, Hu0; simpl; lia).
    replace (- (q * p)) with ((- q) * p) by lia.
    rewrite Z.div_mul by lia. lia.
  - assert (Ht : q * p + 1 <= m <= q * p + p).
    { unfold m. destruct (Z.ltb_spec (2 * w) 7), (Z.ltb_spec 7 (2 * w));
        try destruct (Z.even (q * p + u)); nia. }
    assert (- m / p = - q - 1); [|lia].
    symmetry. apply (Z.div_unique_pos _ _ _ (q * p + p - m)); lia.
Qed.

(** Up to [7 * 2^51] the float quotient by 7 is close enough to the true
    one for [math.ceil] to give the exact ceiling. *)
Lemma ceil_truediv_7_exact n :
  0 < n <= 7 * 2 ^ 51 ->
  Float.ceil (Float.truediv n 7) = exact_ceil_div n 7.
Proof.
  intros [Hn Hle].
  destruct (Z.eq_dec n (7 * 2 ^ 51)) as [->|Hne]; [vm_compute; reflexivity|].
  unfold Float.truediv. change (0 <? 7) with true. cbv iota.
  unfold Float.round. destruct n as [|p|p]; try lia.
  unfold Float.round_pos. rewrite ceil_normalise.
  assert (Hl : Float.ilog2_ratio (Z.pos p) 7 < 51).
  { apply ilog2_ratio_lt; [lia..|]. unfold Float.ratio_lt_pow2.
    change (0 <=? 51) with true. cbv iota. apply Z.ltb_lt. lia. }
  unfold Float.mantissa, Float.ceil. cbn [Float.mant Float.expo].
  unfold Float.exponent.
  destruct (Z.leb_spec 0 (Float.ilog2_ratio (Z.pos p) 7 - 52)) as [H|H]; [lia|].
  apply ceil_nearest_even_sevenths; [lia|].
  change 4 with (2 ^ 2). apply Z.pow_le_mono_r; lia.
Qed.

Lemma ceil_truediv_pos_mono n n' d :
  0 < n -> 0 < d -> n <= n' ->
  Float.ceil (Float.truediv n d) <= Float.ceil (Float.truediv n' d).
Proof.
  intros Hn Hd Hle. unfold Float.truediv.
  destruct (Z.ltb_spec 0 d); [|lia].
  unfold Float.round. destruct n as [|p|p], n' as [|p'|p']; try lia.
  now apply ceil_round_pos_mono.
Qed.
End FloatFacts.

(** ** TierlistRenderer: the layout *)

Section LayoutFacts.
(** The renderer [__init__] builds, whatever fonts it finds. *)
Variable truetype : string -> Z -> option font.
Variable self : TierlistRenderer.
Hypothesis init : self = TierlistRenderer_init truetype.

Lemma init_constants :
  total_width self = 1000 /\ avatar_size self = 100 /\ padding self = 10 /\
  text_height self = 20 /\ min_tier_height self = 100 /\
  label_width self = 150 /\ content_width self = 850.
Proof.
  rewrite init. unfold TierlistRenderer_init.
  destruct (truetype "arial.ttf" 40), (truetype "arial.ttf" 15);
    vm_compute; repeat split.
Qed.

Lemma init_avatars_per_row : avatars_per_row self = 7.
Proof.
  unfold avatars_per_row.
  destruct init_constants as (_ & -> & -> & _ & _ & _ & ->). reflexivity.
Qed.

Lemma init_calc_tier_height n :
  _calc_tier_height self n =
  if n =? 0 then 120 else Float.ceil (Float.truediv n 7) * 130 + 10.
Proof.
  unfold _calc_tier_height. rewrite init_avatars_per_row.
  destruct init_constants as (_ & -> & -> & -> & -> & _ & _). reflexivity.
Qed.

Lemma init_x_pos index : x_pos self index = 160 + index mod 7 * 110.
Proof.
  unfold x_pos. rewrite init_avatars_per_row.
  destruct init_constants as (_ & -> & -> & _ & _ & -> & _). reflexivity.
Qed.

Lemma init_y_pos current_y index :
  y_pos self current_y index = current_y + 10 + index / 7 * 130.
Proof.
  unfold y_pos. rewrite init_avatars_per_row.
  destruct init_constants as (_ & -> & -> & -> & _ & _ & _). reflexivity.
Qed.

(** The anchor of a name label, [x_pos + avatar_size / 2], is exact in
    every column. *)
Lemma name_label_x_exact col :
  0 <= col < 7 ->
  Float.to_int (Float.add (Float.of_int (160 + col * 110)) (Float.truediv 100 2))
  = 210 + col * 110.
Proof.
  intros H.
  assert (col = 0 \/ col = 1 \/ col = 2 \/ col = 3 \/ col = 4 \/ col = 5 \/ col = 6)
    as [->|[->|[->|[->|[->|[->| ->]]]]]] by lia; reflexivity.
Qed.

(** Two grid positions of one tier coincide only for the same index, and
    so do the anchors of their name labels. *)
Lemma init_slot_injective current_y i j :
  x_pos self i = x_pos self j ->
  y_pos self current_y i = y_pos self current_y j ->
  i = j.
Proof.
  rewrite !init_x_pos, !init_y_pos. intros Hx Hy.
  rewrite (Z.div_mod i 7), (Z.div_mod j 7) by lia. lia.
Qed.

Lemma init_name_label_injective {Image : Type} current_y i j
  (op : draw_op Image) :
  is_name_label_at self (x_pos self i) (y_pos self current_y i) op ->
  is_name_label_at self (x_pos self j) (y_pos self current_y j) op ->
  i = j.
Proof.
  destruct op as [| tx ty s fill fnt anchor | |]; simpl; try tauto.
  destruct init_constants as (_ & HA & _). rewrite HA.
  intros [-> ->] [Hx Hy].
  injection Hx as Hx. injection Hy as Hy.
  apply (f_equal Float.to_int) in Hx. rewrite !init_x_pos in Hx.
  rewrite !name_label_x_exact in Hx by (apply Z.mod_pos_bound; lia).
  apply (init_slot_injective current_y); [rewrite !init_x_pos|]; lia.
Qed.
End LayoutFacts.

(** C7, as stated, fails for counts above [7 * 2^51]: the row count is
    [math.ceil] of a binary64 quotient, and at [7 * 2^51 + 1] members the
    quotient rounds down to [2^51], one row short of the exact ceiling. *)
Lemma calc_tier_height_inexact :
  let self := TierlistRenderer_init (fun _ _ => None) in
  let n := 7 * 2 ^ 51 + 1 in
  let unit_height := avatar_size self + text_height self + padding self in
  avatars_per_row self = 7 /\
  _calc_tier_height self n = 2 ^ 51 * unit_height + padding self /\
  exact_ceil_div n (avatars_per_row self) = 2 ^ 51 + 1 /\
  _calc_tier_height self n <>
    exact_ceil_div n (avatars_per_row self) * unit_height + padding self.
Proof.
  vm_compute. repeat split. discriminate.
Qed.

(** C7, amended.  With the constants of [__init__] (W = 1000, A = 100,
    P = 10, T = 20, M = 100), [avatars_per_row] is
    [floor ((W - 0.15 W) / (A + P))] clamped to at least 1, that is 7;
    [_calc_tier_height 0] is [M + 2 P]; and for every member count [n] with
    [0 < n <= 7 * 2^51] the height is
    [ceil (n / avatars_per_row) * (A + T + P) + P] with the exact
    ceiling. *)
Theorem calc_tier_height_formula (truetype : string -> Z -> option font) (n : Z) :
  let self := TierlistRenderer_init truetype in
  let W := total_width self in
  let A := avatar_size self in
  let P := padding self in
  let T := text_height self in
  let M := min_tier_height self in
  (W = 1000 /\ A = 100 /\ P = 10 /\ T = 20 /\ M = 100) /\
  avatars_per_row self = Z.max 1 ((W - 15 * W / 100) / (A + P)) /\
  _calc_tier_height self 0 = M + 2 * P /\
  (0 < n <= 7 * 2 ^ 51 ->
   _calc_tier_height self n =
     exact_ceil_div n (avatars_per_row self) * (A + T + P) + P).
Proof.
  intros self W A P T M.
  destruct (init_constants truetype self eq_refl)
    as (HW & HA & HP & HT & HM & _ & _).
  fold W in HW. fold A in HA. fold P in HP. fold T in HT. fold M in HM.
  pose proof (init_avatars_per_row truetype self eq_refl) as Hk.
  split; [tauto|]. rewrite Hk, HW, HA, HP, HT, HM.
  split; [reflexivity|].
  rewrite !(init_calc_tier_height truetype self eq_refl).
  split; [reflexivity|]. intros Hn.
  destruct (Z.eqb_spec n 0); [lia|].
  now rewrite ceil_truediv_7_exact.
Qed.

(** Fifteen members: three rows. *)
Lemma calc_tier_height_formula_witness :
  let self := TierlistRenderer_init (fun _ _ => None) in
  0 < 15 <= 7 * 2 ^ 51 /\
  _calc_tier_height self 15 =
    exact_ceil_div 15 (avatars_per_row self)
    * (avatar_size self + text_height self + padding self) + padding self.
Proof.
  intros self. split; [lia|].
  apply (calc_tier_height_formula (fun _ _ => None) 15). lia.
Defined.

(** C8.  With the constants of [__init__], [_calc_tier_height] is
    non-decreasing in the member count; with [k = avatars_per_row], the
    counts 1 to [k] all give the height of [k], and [k + 1] gives another
    one. *)
Theorem calc_tier_height_monotone (truetype : string -> Z -> option font) :
  let self := TierlistRenderer_init truetype in
  let k := avatars_per_row self in
  (forall n, 0 <= n -> _calc_tier_height self n <= _calc_tier_height self (n + 1)) /\
  (forall n, 1 <= n <= k -> _calc_tier_height self n = _calc_tier_height self k) /\
  _calc_tier_height self k <> _calc_tier_height self (k + 1).
Proof.
  intros self k.
  assert (Hk : k = 7) by now apply (init_avatars_per_row truetype).
  pose proof (init_calc_tier_height truetype self eq_refl) as Hheight.
  rewrite Hk. split; [|split].
  - intros n Hn. rewrite !Hheight.
    destruct (Z.eqb_spec n 0) as [->|Hn0]; [vm_compute; discriminate|].
    destruct (Z.eqb_spec (n + 1) 0); [lia|].
    pose proof (ceil_truediv_pos_mono n (n + 1) 7). lia.
  - intros n Hn. rewrite !Hheight.
    assert (n = 1 \/ n = 2 \/ n = 3 \/ n = 4 \/ n = 5 \/ n = 6 \/ n = 7)
      as [->|[->|[->|[->|[->|[->| ->]]]]]] by lia; reflexivity.
  - rewrite !Hheight. vm_compute. discriminate.
Qed.

(** From 7 to 8 members, and 3 members against a full row. *)
Lemma calc_tier_height_monotone_witness :
  let self := TierlistRenderer_init (fun _ _ => None) in
  (0 <= 7 /\ _calc_tier_height self 7 <= _calc_tier_height self (7 + 1)) /\
  (1 <= 3 <= avatars_per_row self /\
   _calc_tier_height self 3 = _calc_tier_height self (avatars_per_row self)).
Proof.
  intros self.
  pose proof (calc_tier_height_monotone (fun _ _ => None)) as (Hmono & Heq & _).
  split.
  - split; [lia|]. apply Hmono. lia.
  - split; [vm_compute; split; discriminate|]. apply Heq.
    vm_compute; split; discriminate.
Defined.

(** ** TierlistRenderer: the canvas *)

(** C9.  For every renderer and tierlist, the canvas height [_draw]
    computes is the sum of [_calc_tier_height] of the member counts of S,
    A, B, C, D and F, in that order, and a canvas it returns has that
    height; with two members in S and none elsewhere it is the height for
    2 plus five times the height for 0. *)
Theorem canvas_height_is_sum_of_tier_heights {BytesIO Image : Type}
  (open_rgba : BytesIO -> option Image) (resize : Image -> Z -> Z -> Image)
  (self : TierlistRenderer) (avatar_images : gmap Z BytesIO)
  (tierlist : Tierlist) :
  let height_for := _calc_tier_height self in
  let count tier := dict_len (tiers tierlist tier) in
  total_canvas_height self tierlist =
    height_for (count Tier.S) + height_for (count Tier.A)
    + height_for (count Tier.B) + height_for (count Tier.C)
    + height_for (count Tier.D) + height_for (count Tier.F) /\
  (forall canvas,
      _draw open_rgba resize self avatar_images tierlist = Returns canvas ->
      canvas_height canvas = total_canvas_height self tierlist) /\
  (count Tier.S = 2 -> count Tier.A = 0 -> count Tier.B = 0 ->
   count Tier.C = 0 -> count Tier.D = 0 -> count Tier.F = 0 ->
   total_canvas_height self tierlist = height_for 2 + 5 * height_for 0).
Proof.
  intros height_for count.
  assert (Hsum : total_canvas_height self tierlist =
                 height_for (count Tier.S) + height_for (count Tier.A)
                 + height_for (count Tier.B) + height_for (count Tier.C)
                 + height_for (count Tier.D) + height_for (count Tier.F)).
  { unfold total_canvas_height, tiers_items, Tier.all.
    cbn [map fold_left]. fold height_for. unfold count. lia. }
  split; [exact Hsum|]. split.
  - intros canvas. unfold _draw.
    destruct (draw_tiers _ _ _ _ _ _ _) as [ops|e]; simpl; [|discriminate].
    now intros [= <-].
  - intros HS HA HB HC HD HF. rewrite Hsum, HS, HA, HB, HC, HD, HF. lia.
Qed.

(** The round trip [begin("test")], [add(1, Alice, S)], [add(2, Bob, S)]. *)
Lemma canvas_height_is_sum_of_tier_heights_witness :
  let self := TierlistRenderer_init (fun _ _ => None) in
  let alice := mkMember "Alice" "uri1" in
  let bob := mkMember "Bob" "uri2" in
  exists manager tierlist,
    manager_run TierlistManager_init
      [Begin "test"; AddTo 1 alice (TierMember Tier.S);
       AddTo 2 bob (TierMember Tier.S)] = Returns manager /\
    tierlists manager !! "test"%string = Some tierlist /\
    dict_len (tiers tierlist Tier.S) = 2 /\
    total_canvas_height self tierlist =
      _calc_tier_height self 2 + 5 * _calc_tier_height self 0.
Proof.
  intros self alice bob.
  eexists _, _. split; [reflexivity|]. split; [reflexivity|].
  split; [reflexivity|].
  apply (canvas_height_is_sum_of_tier_heights
           (fun s : string => Some s) (fun i _ _ => i) self ∅); reflexivity.
Defined.

(** ** TierlistRenderer: the drawing loops *)

Section DrawFacts.
Context {BytesIO Image : Type}.
Variable open_rgba : BytesIO -> option Image.
Variable resize : Image -> Z -> Z -> Image.
Variable self : TierlistRenderer.
Variable avatar_images : gmap Z BytesIO.

(** Every operation of the member loop is the avatar or the name label of
    a member whose identifier is in [avatar_images], at the grid position
    of that member's index. *)
Lemma draw_members_ops members : forall current_y index ops,
  draw_members open_rgba resize self avatar_images current_y index members
    = Returns ops ->
  forall op, op ∈ ops ->
  exists (j : nat) user_id member data,
    members !! j = Some (user_id, member) /\
    avatar_images !! user_id = Some data /\
    (is_avatar_at (x_pos self (index + Z.of_nat j))
                  (y_pos self current_y (index + Z.of_nat j)) op \/
     is_name_label_at self (x_pos self (index + Z.of_nat j))
                      (y_pos self current_y (index + Z.of_nat j)) op).
Proof.
  induction members as [|[uid m] rest IH]; intros cy k ops; simpl.
  - intros [= <-] op Hop. now apply elem_of_nil in Hop.
  - destruct (avatar_images !! uid) as [data|] eqn:Hdata; simpl.
    + unfold get_font_name.
      destruct (font_name self) as [fnt|]; simpl; [|discriminate].
      destruct (draw_members _ _ _ _ cy (k + 1) rest) as [ops'|e] eqn:Hrest;
        simpl; [|discriminate].
      intros [= <-] op Hop.
      rewrite !elem_of_app in Hop. destruct Hop as [[Hop|Hop]|Hop].
      * exists 0%nat, uid, m, data. rewrite Z.add_0_r. repeat split; [exact Hdata|].
        left. destruct (open_rgba data); [|now apply elem_of_nil in Hop].
        apply list_elem_of_singleton in Hop as ->. simpl. tauto.
      * exists 0%nat, uid, m, data. rewrite Z.add_0_r. repeat split; [exact Hdata|].
        right. apply list_elem_of_singleton in Hop as ->. simpl. tauto.
      * destruct (IH _ _ _ Hrest op Hop) as (j & u & m' & d' & Hj & Hd & Hpos).
        exists (Datatypes.S j), u, m', d'. split; [exact Hj|]. split; [exact Hd|].
        replace (k + Z.of_nat (Datatypes.S j)) with (k + 1 + Z.of_nat j) by lia.
        exact Hpos.
    + destruct (draw_members _ _ _ _ cy (k + 1) rest) as [ops'|e] eqn:Hrest;
        simpl; [|discriminate].
      intros [= <-] op Hop.
      destruct (IH _ _ _ Hrest op Hop) as (j & u & m' & d' & Hj & Hd & Hpos).
      exists (Datatypes.S j), u, m', d'. split; [exact Hj|]. split; [exact Hd|].
      replace (k + Z.of_nat (Datatypes.S j)) with (k + 1 + Z.of_nat j) by lia.
      exact Hpos.
Qed.

(** With [font_name] set, neither loop raises. *)
Lemma draw_members_returns fnt members : forall current_y index,
  font_name self = Some fnt ->
  exists ops,
    draw_members open_rgba resize self avatar_images current_y index members
    = Returns ops.
Proof.
  induction members as [|[uid m] rest IH]; intros cy k Hf; simpl; [eauto|].
  destruct (IH cy (k + 1) Hf) as [ops' ->].
  unfold get_font_name. rewrite Hf.
  destruct (avatar_images !! uid); simpl; eauto.
Qed.

Lemma draw_tiers_returns fnt heights items : forall current_y,
  font_name self = Some fnt ->
  exists ops,
    draw_tiers open_rgba resize self avatar_images heights current_y items
    = Returns ops.
Proof.
  induction items as [|[t ms] rest IH]; intros cy Hf; simpl; [eauto|].
  destruct (draw_members_returns fnt ms cy 0 Hf) as [ops ->].
  destruct (IH (cy + heights t) Hf) as [ops' ->]. simpl. eauto.
Qed.

Lemma Tier_eqb_spec (t t' : Tier) : Tier.eqb t t' = true <-> t = t'.
Proof. destruct t, t'; simpl; split; (reflexivity || discriminate). Qed.

(** The operations of the tier loop contain, for every tier visited, the
    operations of its member loop, run at the offset the loop has reached. *)
Lemma draw_tiers_segment heights (members_of : Tier -> pydict) todo :
  forall current_y all_ops tier,
  draw_tiers open_rgba resize self avatar_images heights current_y
    (map (fun t => (t, members_of t)) todo) = Returns all_ops ->
  tier ∈ todo ->
  exists before ops after,
    all_ops = before ++ ops ++ after /\
    draw_members open_rgba resize self avatar_images
      (band_top heights current_y todo tier) 0 (members_of tier) = Returns ops.
Proof.
  induction todo as [|t rest IH]; intros cy all_ops tier; simpl.
  - intros _ H. now apply elem_of_nil in H.
  - destruct (draw_members _ _ _ _ cy 0 (members_of t)) as [ops|e] eqn:Hms;
      simpl; [|discriminate].
    destruct (draw_tiers _ _ _ _ heights (cy + heights t) _) as [ops'|e]
      eqn:Hrest; simpl; [|discriminate].
    intros [= <-] Hin.
    destruct (Tier.eqb t tier) eqn:E.
    + apply Tier_eqb_spec in E as <-.
      eexists [_; _], ops, (_ :: ops'). split; [reflexivity | exact Hms].
    + apply elem_of_cons in Hin as [->|Hin].
      { assert (Tier.eqb t t = true) by now apply Tier_eqb_spec. congruence. }
      destruct (IH _ _ _ Hrest Hin) as (before & o & after & -> & Ho).
      eexists (_ :: _ :: ops ++ _ :: before), o, after.
      split; [|exact Ho]. simpl. now rewrite <- app_assoc.
Qed.
End DrawFacts.

(** ** TierlistRenderer: members without a fetched avatar *)

(** C2, as stated, fails: Bob's avatar cannot be fetched, [render] returns
    a canvas, and no text on it shows his name, while Alice, whose avatar
    was fetched, has her label. *)
Lemma render_skips_member_without_avatar :
  let self := TierlistRenderer_init (fun _ _ => None) in
  let alice := mkMember "Alice" "uri1" in
  let bob := mkMember "Bob" "unreachable" in
  let tierlist := run_calls [CallAdd 1 alice (TierMember Tier.S);
                             CallAdd 2 bob (TierMember Tier.S)] Tierlist_init in
  let download (url : string) :=
    if String.eqb url "unreachable" then None else Some url in
  fetch_avatars download tierlist !! 2 = None /\
  exists canvas,
    render (fun data : string => Some data) (fun img _ _ => img) self
      download tierlist = Returns canvas /\
    Exists (shows_text "Alice") (drawn canvas) /\
    Forall (fun op => ~ shows_text "Bob" op) (drawn canvas).
Proof.
  split; [reflexivity|]. eexists. split; [vm_compute; reflexivity|]. split.
  - apply Exists_cons_tl, Exists_cons_tl, Exists_cons_tl, Exists_cons_hd.
    reflexivity.
  - repeat (apply Forall_cons; split; [simpl; try tauto; discriminate|]).
    apply Forall_nil_2.
Qed.

(** C2, amended.  With the constants of [__init__], a member whose
    identifier is absent from the fetched-assets map is skipped by the draw
    step: among the operations drawn for the member's tier, no avatar is
    pasted at the member's grid position and no text is anchored where its
    name label would go.  The draw step returns a canvas whenever the
    renderer has its [font_name] attribute. *)
Theorem member_without_avatar_is_skipped {BytesIO Image : Type}
  (open_rgba : BytesIO -> option Image) (resize : Image -> Z -> Z -> Image)
  (truetype : string -> Z -> option font) (avatar_images : gmap Z BytesIO)
  (tierlist : Tierlist) (tier : Tier) (index : nat) (user_id : Z)
  (member : Member) :
  let self := TierlistRenderer_init truetype in
  let current_y := band_top (tier_heights self tierlist) 0 Tier.all tier in
  let x := x_pos self (Z.of_nat index) in
  let y := y_pos self current_y (Z.of_nat index) in
  tiers tierlist tier !! index = Some (user_id, member) ->
  avatar_images !! user_id = None ->
  (font_name self <> None ->
   exists canvas,
     _draw open_rgba resize self avatar_images tierlist = Returns canvas) /\
  (forall canvas,
      _draw open_rgba resize self avatar_images tierlist = Returns canvas ->
      exists before ops after,
        drawn canvas = before ++ ops ++ after /\
        draw_members open_rgba resize self avatar_images current_y 0
          (tiers tierlist tier) = Returns ops /\
        forall op, op ∈ ops ->
                   ~ is_avatar_at x y op /\ ~ is_name_label_at self x y op).
Proof.
  intros self current_y x y Hmember Habsent. split.
  - intros Hfont. destruct (font_name self) as [fnt|] eqn:Hf; [|contradiction].
    unfold _draw.
    destruct (draw_tiers_returns open_rgba resize self avatar_images fnt
                (tier_heights self tierlist) (tiers_items tierlist) 0 Hf)
      as [ops ->].
    simpl. eauto.
  - intros canvas. unfold _draw.
    destruct (draw_tiers _ _ _ _ _ _ _) as [all_ops|e] eqn:Hall; simpl;
      [|discriminate].
    intros [= <-]. cbn [drawn].
    destruct (draw_tiers_segment open_rgba resize self avatar_images
                (tier_heights self tierlist) (tiers tierlist) Tier.all
                0 all_ops tier Hall) as (before & ops & after & -> & Hops).
    { destruct tier; unfold Tier.all; set_solver. }
    exists before, ops, after. split; [reflexivity|]. split; [exact Hops|].
    intros op Hop.
    destruct (draw_members_ops open_rgba resize self avatar_images _ _ _ _
                Hops op Hop) as (j & uid & m & data & Hj & Hdata & Hpos).
    assert (Hne : index <> j).
    { intros ->. rewrite Hj in Hmember. injection Hmember as -> _. congruence. }
    rewrite Z.add_0_l in Hpos.
    split; intros Hat; apply Hne, Nat2Z.inj.
    + destruct op; simpl in Hat, Hpos; try tauto.
      destruct Hat as [-> ->], Hpos as [[Hx Hy]|[]].
      now apply (init_slot_injective truetype self eq_refl current_y).
    + destruct Hpos as [Hpos|Hpos].
      * destruct op; simpl in Hat, Hpos; tauto.
      * now apply (init_name_label_injective truetype self eq_refl
                     current_y _ _ op).
Qed.

(** Alice with a fetched avatar and Bob without one, both in S: nothing is
    drawn at Bob's grid position [(270, 10)]. *)
Lemma member_without_avatar_is_skipped_witness :
  let self := TierlistRenderer_init (fun _ _ => None) in
  let alice := mkMember "Alice" "uri1" in
  let bob := mkMember "Bob" "unreachable" in
  let tierlist := run_calls [CallAdd 1 alice (TierMember Tier.S);
                             CallAdd 2 bob (TierMember Tier.S)] Tierlist_init in
  let avatar_images : gmap Z string := <[1 := "png"%string]> ∅ in
  let draw := _draw (fun data : string => Some data) (fun img _ _ => img)
                self avatar_images tierlist in
  (tiers tierlist Tier.S !! 1%nat = Some (2, bob) /\
   avatar_images !! 2 = None /\ font_name self <> None) /\
  (exists canvas, draw = Returns canvas) /\
  (forall canvas,
      draw = Returns canvas ->
      exists before ops after,
        drawn canvas = before ++ ops ++ after /\
        draw_members (fun data : string => Some data) (fun img _ _ => img)
          self avatar_images 0 0 (tiers tierlist Tier.S) = Returns ops /\
        forall op, op ∈ ops ->
                   ~ is_avatar_at 270 10 op /\ ~ is_name_label_at self 270 10 op).
Proof.
  intros self alice bob tierlist avatar_images draw.
  pose proof (member_without_avatar_is_skipped
                (fun data : string => Some data) (fun img _ _ => img)
                (fun _ _ => None) avatar_images tierlist Tier.S 1 2 bob
                eq_refl eq_refl) as [Hreturns Hskipped].
  split; [repeat split; discriminate|]. split.
  - apply Hreturns. discriminate.
  - exact Hskipped.
Defined.

(** * More of the code

    ** Tierlist: what [add_member] and [remove_member] do to the members *)

Section TierlistMore.
Implicit Types (self : Tierlist) (d : list (Z * Member)) (k i : Z) (t : Tier).

Lemma dict_del_idem i d : dict_del i (dict_del i d) = dict_del i d.
Proof.
  apply dict_del_absent. rewrite dict_contains_del, Z.eqb_refl. reflexivity.
Qed.

Lemma dict_del_set i v d : dict_del i (dict_set i v d) = dict_del i d.
Proof.
  induction d as [|[k' v'] d IH]; simpl.
  - now rewrite Z.eqb_refl.
  - destruct (Z.eqb_spec k' i) as [->|Hne]; simpl.
    + now rewrite Z.eqb_refl.
    + destruct (Z.eqb_spec k' i); [contradiction|]. now rewrite IH.
Qed.

Lemma first_holder_none_iff self i :
  first_holder self i Tier.all = None <->
  forall t, dict_contains i (tiers self t) = false.
Proof.
  split; [intros H t; now apply first_holder_none|].
  intros H. unfold Tier.all. cbn [first_holder]. now rewrite !H.
Qed.

Lemma delete_first_get_other self i k t todo :
  k <> i ->
  dict_get k (tiers (snd (delete_first self i todo)) t) = dict_get k (tiers self t).
Proof.
  intros Hk. rewrite delete_first_spec.
  destruct (first_holder self i todo) as [t0|]; simpl; [|reflexivity].
  destruct (tier_eq_dec t0 t) as [->|Hne].
  - rewrite tiers_set_tier_eq, dict_get_del.
    destruct (Z.eqb_spec k i); [contradiction | reflexivity].
  - now rewrite tiers_set_tier_ne.
Qed.

Lemma delete_first_del self i t todo :
  dict_del i (tiers (snd (delete_first self i todo)) t) = dict_del i (tiers self t).
Proof.
  rewrite delete_first_spec.
  destruct (first_holder self i todo) as [t0|]; simpl; [|reflexivity].
  destruct (tier_eq_dec t0 t) as [->|Hne].
  - now rewrite tiers_set_tier_eq, dict_del_idem.
  - now rewrite tiers_set_tier_ne.
Qed.
Lemma remove_member_found (self : Tierlist) (i : Z) :
  fst (remove_member self i) = true <-> is_member self i.
Proof.
  unfold remove_member. rewrite delete_first_spec.
  destruct (first_holder self i Tier.all) as [t0|] eqn:E; cbn [fst].
  - split; [|reflexivity].
    intros _. exists t0. eapply first_holder_holds; eassumption.
  - split; [discriminate|].
    intros [t Ht]. unfold holds in Ht.
    rewrite (first_holder_none self i t E) in Ht. discriminate.
Qed.

Lemma remove_member_not_found (self : Tierlist) (i : Z) :
  ~ is_member self i -> remove_member self i = (false, self).
Proof.
  intros Hnot. unfold remove_member. rewrite delete_first_spec.
  destruct (first_holder self i Tier.all) as [t0|] eqn:E; [|reflexivity].
  exfalso. apply Hnot. exists t0. eapply first_holder_holds; eassumption.
Qed.
End TierlistMore.

(** X1.  [add_member] with a tier of the enumeration returns [True];
    afterwards the target tier maps the identifier to the new data, and
    every other identifier is mapped, in every tier, as before. *)
Theorem add_member_stores (self : Tierlist) (_id : Z) (_data : Member)
  (target : Tier) :
  let result := add_member self _id _data (TierMember target) in
  fst result = true /\
  dict_get _id (tiers (snd result) target) = Some _data /\
  (forall k t, k <> _id ->
               dict_get k (tiers (snd result) t) = dict_get k (tiers self t)).
Proof.
  unfold add_member. cbn [fst snd]. split; [reflexivity|]. split.
  - now rewrite tiers_set_tier_eq, dict_get_set, Z.eqb_refl.
  - intros k t Hk. destruct (tier_eq_dec target t) as [<-|Hne].
    + rewrite tiers_set_tier_eq, dict_get_set.
      destruct (Z.eqb_spec k _id); [contradiction|].
      now apply delete_first_get_other.
    + rewrite tiers_set_tier_ne by exact Hne. now apply delete_first_get_other.
Qed.

(** Bob added to A beside Alice in S. *)
Lemma add_member_stores_witness :
  let alice := mkMember "Alice" "uri1" in
  let bob := mkMember "Bob" "uri2" in
  let self := run_calls [CallAdd 1 alice (TierMember Tier.S)] Tierlist_init in
  let self' := snd (add_member self 2 bob (TierMember Tier.A)) in
  1 <> 2 /\
  dict_get 2 (tiers self' Tier.A) = Some bob /\
  dict_get 1 (tiers self' Tier.S) = dict_get 1 (tiers self Tier.S).
Proof.
  intros alice bob self self'.
  destruct (add_member_stores self 2 bob Tier.A) as (_ & Hget & Hother).
  split; [lia|]. split; [exact Hget|]. apply Hother. lia.
Defined.

(** X2.  Neither [add_member] nor [remove_member] reorders the other
    members: in every tier, the entries other than the identifier are the
    same, in the same order, before and after the call. *)
Theorem other_members_keep_their_order (self : Tierlist) (_id : Z)
  (_data : Member) (target t : Tier) :
  dict_del _id (tiers (snd (add_member self _id _data (TierMember target))) t)
  = dict_del _id (tiers self t) /\
  dict_del _id (tiers (snd (remove_member self _id)) t)
  = dict_del _id (tiers self t).
Proof.
  split.
  - unfold add_member. cbn [snd]. destruct (tier_eq_dec target t) as [<-|Hne].
    + rewrite tiers_set_tier_eq, dict_del_set. apply delete_first_del.
    + rewrite tiers_set_tier_ne by exact Hne. apply delete_first_del.
  - apply delete_first_del.
Qed.

(** X3.  [remove_member] returns [True] exactly when some tier holds the
    identifier, and a call that returns [False] leaves the tierlist as it
    was. *)
Theorem remove_member_result (self : Tierlist) (_id : Z) :
  let result := remove_member self _id in
  (fst result = true <-> is_member self _id) /\
  (fst result = false -> snd result = self).
Proof.
  intros result. split; [apply remove_member_found|].
  intros Hfalse. unfold result. rewrite remove_member_not_found; [reflexivity|].
  intros Hmem. apply remove_member_found in Hmem. fold result in Hmem.
  congruence.
Qed.

(** Removing a member, and removing an identifier that is not there. *)
Lemma remove_member_result_witness :
  let alice := mkMember "Alice" "uri1" in
  let self := run_calls [CallAdd 1 alice (TierMember Tier.C)] Tierlist_init in
  (is_member self 1 /\ fst (remove_member self 1) = true) /\
  (fst (remove_member self 2) = false /\ snd (remove_member self 2) = self).
Proof.
  intros alice self.
  destruct (remove_member_result self 1) as [H1 _].
  destruct (remove_member_result self 2) as [_ H2].
  split.
  - assert (Hm : is_member self 1) by (exists Tier.C; reflexivity).
    split; [exact Hm | now apply H1].
  - split; [reflexivity | apply H2; reflexivity].
Defined.

(** X4.  In a state reached from the empty tierlist, after
    [remove_member] no tier holds the identifier, the other identifiers are
    mapped as before, and removing it again returns [False] and changes
    nothing. *)
Theorem remove_member_clears (calls : list tierlist_call) (_id : Z) :
  let self := run_calls calls Tierlist_init in
  let result := remove_member self _id in
  (forall t, dict_contains _id (tiers (snd result) t) = false) /\
  (forall k t, k <> _id ->
               dict_get k (tiers (snd result) t) = dict_get k (tiers self t)) /\
  remove_member (snd result) _id = (false, snd result).
Proof.
  intros self result.
  assert (Huniq : in_at_most_one_tier self)
    by apply run_calls_unique, Tierlist_init_unique.
  assert (Hclear : forall t, dict_contains _id (tiers (snd result) t) = false).
  { intros t. now apply delete_first_clears. }
  split; [exact Hclear|]. split.
  - intros k t Hk. now apply delete_first_get_other.
  - unfold remove_member at 1. rewrite delete_first_spec.
    now rewrite (proj2 (first_holder_none_iff _ _) Hclear).
Qed.

(** Removing the first of two members of S, twice. *)
Lemma remove_member_clears_witness :
  let alice := mkMember "Alice" "uri1" in
  let bob := mkMember "Bob" "uri2" in
  let calls := [CallAdd 1 alice (TierMember Tier.S);
                CallAdd 2 bob (TierMember Tier.S)] in
  let self := run_calls calls Tierlist_init in
  let self' := snd (remove_member self 1) in
  2 <> 1 /\
  dict_get 2 (tiers self' Tier.S) = dict_get 2 (tiers self Tier.S) /\
  remove_member self' 1 = (false, self').
Proof.
  intros alice bob calls self self'.
  destruct (remove_member_clears calls 1) as (_ & Hother & Hagain).
  split; [lia|]. split; [apply Hother; lia | exact Hagain].
Defined.

(** X5.  Adding an identifier that no tier holds and removing it again
    gives back the tierlist as it was, order included, and the removal
    returns [True]. *)
Theorem add_then_remove_round_trip (self : Tierlist) (_id : Z) (_data : Member)
  (target : Tier) :
  (forall t, dict_contains _id (tiers self t) = false) ->
  remove_member (snd (add_member self _id _data (TierMember target))) _id
  = (true, self).
Proof.
  intros Habsent. unfold add_member, remove_member. cbn [snd].
  rewrite (delete_first_spec self).
  rewrite (proj2 (first_holder_none_iff _ _) Habsent). cbn [snd].
  rewrite dict_set_fresh by apply Habsent.
  set (self1 := set_tier self target (tiers self target ++ [(_id, _data)])).
  assert (Hholds : holds self1 target _id).
  { unfold holds, self1. rewrite tiers_set_tier_eq.
    apply dict_contains_keys. rewrite map_app. apply elem_of_app. right.
    simpl. apply list_elem_of_singleton. reflexivity. }
  assert (Huniq : forall t, holds self1 t _id -> t = target).
  { intros t Ht. destruct (tier_eq_dec target t) as [<-|Hne]; [reflexivity|].
    unfold holds, self1 in Ht. rewrite tiers_set_tier_ne in Ht by exact Hne.
    rewrite Habsent in Ht. discriminate. }
  rewrite delete_first_spec.
  destruct (first_holder self1 _id Tier.all) as [t0|] eqn:E.
  - apply first_holder_holds in E as Ht0. apply Huniq in Ht0 as ->.
    f_equal. unfold self1. rewrite tiers_set_tier_eq, set_tier_set_tier.
    rewrite dict_del_app, dict_del_absent by apply Habsent.
    simpl. rewrite Z.eqb_refl, app_nil_r. apply set_tier_same.
  - apply first_holder_none with (t := target) in E.
    unfold holds in Hholds. congruence.
Qed.

(** Bob added after Alice and removed again. *)
Lemma add_then_remove_round_trip_witness :
  let alice := mkMember "Alice" "uri1" in
  let bob := mkMember "Bob" "uri2" in
  let self := run_calls [CallAdd 1 alice (TierMember Tier.S)] Tierlist_init in
  (forall t, dict_contains 2 (tiers self t) = false) /\
  remove_member (snd (add_member self 2 bob (TierMember Tier.S))) 2 = (true, self).
Proof.
  intros alice bob self.
  assert (H : forall t, dict_contains 2 (tiers self t) = false)
    by (intros t; destruct t; reflexivity).
  split; [exact H|]. now apply add_then_remove_round_trip.
Defined.

Section CountFacts.
Implicit Types (self : Tierlist) (d : list (Z * Member)) (k i : Z) (t : Tier).

Lemma dict_len_set k v d :
  dict_len (dict_set k v d) =
  if dict_contains k d then dict_len d else dict_len d + 1.
Proof.
  unfold dict_len. induction d as [|[k' v'] d IH]; simpl; [reflexivity|].
  destruct (k' =? k); simpl; [reflexivity|].
  destruct (dict_contains k d); lia.
Qed.

Lemma dict_len_del k d :
  NoDup (map fst d) ->
  dict_len (dict_del k d) =
  if dict_contains k d then dict_len d - 1 else dict_len d.
Proof.
  unfold dict_len. induction d as [|[k' v'] d IH]; simpl; [reflexivity|].
  rewrite NoDup_cons. intros [Hnotin Hnd].
  destruct (Z.eqb_spec k' k) as [->|Hne]; simpl.
  - rewrite dict_del_absent; [lia|].
    destruct (dict_contains k d) eqn:E; [|reflexivity].
    apply dict_contains_keys in E. contradiction.
  - specialize (IH Hnd). destruct (dict_contains k d); lia.
Qed.

Lemma total_members_set_tier self t d :
  total_members (set_tier self t d) =
  total_members self - dict_len (tiers self t) + dict_len d.
Proof. unfold total_members. destruct t; simpl; lia. Qed.
End CountFacts.

(** X6.  In a state reached from the empty tierlist, [add_member] of an
    identifier already in the list keeps the number of members and
    [remove_member] lowers it by one; for an identifier not in the list,
    [add_member] raises it by one and [remove_member] keeps it. *)
Theorem member_count (calls : list tierlist_call) (_id : Z) (_data : Member)
  (target : Tier) :
  let self := run_calls calls Tierlist_init in
  let added := snd (add_member self _id _data (TierMember target)) in
  let removed := snd (remove_member self _id) in
  (is_member self _id ->
   total_members added = total_members self /\
   total_members removed = total_members self - 1) /\
  (~ is_member self _id ->
   total_members added = total_members self + 1 /\
   total_members removed = total_members self).
Proof.
  intros self added removed.
  assert (Huniq : in_at_most_one_tier self)
    by apply run_calls_unique, Tierlist_init_unique.
  assert (Hkeys : keys_distinct self)
    by apply run_calls_keys_distinct, Tierlist_init_keys_distinct.
  assert (Hclear : dict_contains _id
                     (tiers (snd (delete_first self _id Tier.all)) target) = false)
    by now apply delete_first_clears.
  unfold added, removed, add_member, remove_member. cbn [snd].
  rewrite total_members_set_tier, dict_len_set, Hclear.
  rewrite delete_first_spec in *.
  destruct (first_holder self _id Tier.all) as [t0|] eqn:E; cbn [snd] in *.
  - split.
    + intros _. rewrite total_members_set_tier, dict_len_del by apply Hkeys.
      rewrite (first_holder_holds self _id Tier.all t0 E). lia.
    + intros Hnot. exfalso. apply Hnot. exists t0.
      eapply first_holder_holds; eassumption.
  - split.
    + intros [t Ht]. unfold holds in Ht.
      rewrite (first_holder_none self _id t E) in Ht. discriminate.
    + intros _. lia.
Qed.

(** Moving the only member, and adding a second one. *)
Lemma member_count_witness :
  let alice := mkMember "Alice" "uri1" in
  let self := run_calls [CallAdd 1 alice (TierMember Tier.S)] Tierlist_init in
  (is_member self 1 /\
   total_members (snd (add_member self 1 alice (TierMember Tier.F)))
   = total_members self) /\
  (~ is_member self 2 /\
   total_members (snd (add_member self 2 alice (TierMember Tier.F)))
   = total_members self + 1).
Proof.
  intros alice self.
  assert (H1 : is_member self 1) by (exists Tier.S; reflexivity).
  assert (H2 : ~ is_member self 2) by (intros [t Ht]; destruct t; discriminate Ht).
  split.
  - split; [exact H1|].
    apply (member_count [CallAdd 1 alice (TierMember Tier.S)] 1 alice Tier.F), H1.
  - split; [exact H2|].
    apply (member_count [CallAdd 1 alice (TierMember Tier.S)] 2 alice Tier.F), H2.
Defined.

(** ** TierlistManager: opening, closing and the stored lists *)

(** X7.  With no list active, [begin_tierlist] returns [SUCCESS] and makes
    the name active; a list already stored under the name is kept with its
    members, a new name gets an empty tierlist, and the lists under other
    names are untouched. *)
Theorem begin_tierlist_opens_list (self : TierlistManager) (name : string) :
  currently_active self = None ->
  exists self',
    begin_tierlist self name = Returns (SUCCESS, self') /\
    currently_active self' = Some name /\
    tierlists self' !! name
    = Some (default Tierlist_init (tierlists self !! name)) /\
    (forall other, other <> name ->
                   tierlists self' !! other = tierlists self !! other).
Proof.
  intros Hnone. unfold begin_tierlist. rewrite Hnone.
  destruct (tierlists self !! name) as [tl|] eqn:Hname.
  - eexists. split; [reflexivity|]. simpl. rewrite Hname. auto.
  - eexists. split; [reflexivity|]. simpl. rewrite lookup_insert_eq.
    split; [reflexivity|]. split; [reflexivity|].
    intros other Hne. now rewrite lookup_insert_ne.
Qed.

(** Opening list "a" again after it was closed with Alice in S. *)
Lemma begin_tierlist_opens_list_witness :
  let alice := mkMember "Alice" "uri1" in
  exists self tl self',
    manager_run TierlistManager_init
      [Begin "a"; AddTo 1 alice (TierMember Tier.S); End_] = Returns self /\
    currently_active self = None /\
    tierlists self !! "a"%string = Some tl /\
    begin_tierlist self "a" = Returns (SUCCESS, self') /\
    tierlists self' !! "a"%string = Some tl /\
    dict_get 1 (tiers tl Tier.S) = Some alice.
Proof.
  intros alice. eexists _, _.
  edestruct (begin_tierlist_opens_list
               (mkManager (<["a"%string :=
                               snd (add_member Tierlist_init 1 alice
                                      (TierMember Tier.S))]> ∅) None) "a")
    as (self' & Hbegin & _ & Hlist & _); [reflexivity|].
  exists self'. split; [reflexivity|]. split; [reflexivity|].
  split; [reflexivity|]. split; [exact Hbegin|]. split; [exact Hlist|].
  reflexivity.
Defined.

(** X8.  With a list active, [end_tierlist] returns [SUCCESS], clears the
    active name and keeps every list; [begin_tierlist] with the same name
    then gives back the manager as it was. *)
Theorem end_begin_round_trip (self : TierlistManager) (active : string) :
  currently_active self = Some active ->
  is_Some (tierlists self !! active) ->
  exists closed,
    end_tierlist self = Returns (SUCCESS, closed) /\
    currently_active closed = None /\
    tierlists closed = tierlists self /\
    begin_tierlist closed active = Returns (SUCCESS, self).
Proof.
  intros Hactive [tl Htl]. unfold end_tierlist, begin_tierlist.
  rewrite Hactive. eexists. split; [reflexivity|]. simpl.
  split; [reflexivity|]. split; [reflexivity|].
  rewrite Htl. destruct self as [m a]. simpl in *. now subst.
Qed.

(** Closing and re-opening list "a". *)
Lemma end_begin_round_trip_witness :
  let self := mkManager (<["a"%string := Tierlist_init]> ∅) (Some "a"%string) in
  exists closed,
    end_tierlist self = Returns (SUCCESS, closed) /\
    begin_tierlist closed "a" = Returns (SUCCESS, self).
Proof.
  intros self.
  destruct (end_begin_round_trip self "a") as (closed & H1 & _ & _ & H2);
    [reflexivity | eexists; reflexivity |].
  exists closed. split; assumption.
Defined.

(** X9.  No manager operation deletes a tierlist, and none changes a
    tierlist other than the active one. *)
Theorem inactive_lists_are_untouched (self self' : TierlistManager)
  (c : manager_call) (code : TierlistError) (name : string) (tl : Tierlist) :
  manager_step self c = Returns (code, self') ->
  tierlists self !! name = Some tl ->
  is_Some (tierlists self' !! name) /\
  (currently_active self <> Some name -> tierlists self' !! name = Some tl).
Proof.
  intros Hstep Hname.
  assert (Hsame : tierlists self' = tierlists self ->
                  is_Some (tierlists self' !! name) /\
                  (currently_active self <> Some name ->
                   tierlists self' !! name = Some tl)).
  { intros ->. rewrite Hname. eauto. }
  assert (Hwrite : forall active tl',
             currently_active self = Some active ->
             tierlists self' = <[active := tl']> (tierlists self) ->
             is_Some (tierlists self' !! name) /\
             (currently_active self <> Some name ->
              tierlists self' !! name = Some tl)).
  { intros active tl' Ha ->. destruct (decide (active = name)) as [->|Hne].
    - rewrite lookup_insert_eq. split; [eauto | congruence].
    - rewrite lookup_insert_ne by exact Hne. rewrite Hname. eauto. }
  destruct c as [n| |i d tv|i]; simpl in Hstep.
  - unfold begin_tierlist in Hstep.
    destruct (currently_active self) as [a|] eqn:Ha.
    + injection Hstep as _ <-. now apply Hsame.
    + destruct (tierlists self !! n) as [tl0|] eqn:Hn;
        injection Hstep as _ <-; simpl; [rewrite Hname; eauto|].
      assert (n <> name) by congruence.
      rewrite lookup_insert_ne by assumption. rewrite Hname. eauto.
  - unfold end_tierlist in Hstep.
    destruct (currently_active self) as [a|] eqn:Ha;
      injection Hstep as _ <-; [|now apply Hsame].
    simpl. rewrite Hname. eauto.
  - unfold add_to_tierlist in Hstep.
    destruct (currently_active self) as [a|] eqn:Ha;
      [|injection Hstep as _ <-; now apply Hsame].
    destruct (tierlists self !! a) as [tl0|]; [|discriminate].
    destruct (add_member tl0 i d tv) as [ok tl'].
    apply (Hwrite a tl' eq_refl).
    destruct ok; simpl in Hstep; injection Hstep as _ <-; reflexivity.
  - unfold remove_from_tierlist in Hstep.
    destruct (currently_active self) as [a|] eqn:Ha;
      [|injection Hstep as _ <-; now apply Hsame].
    destruct (tierlists self !! a) as [tl0|]; [|discriminate].
    destruct (remove_member tl0 i) as [found tl'].
    apply (Hwrite a tl' eq_refl).
    destruct found; simpl in Hstep; injection Hstep as _ <-; reflexivity.
Qed.

(** Adding to the active list "a" leaves list "b" alone. *)
Lemma inactive_lists_are_untouched_witness :
  let alice := mkMember "Alice" "uri1" in
  let lists : gmap string Tierlist :=
    <["a"%string := Tierlist_init]> (<["b"%string := Tierlist_init]> ∅) in
  let self := mkManager lists (Some "a"%string) in
  exists self',
    manager_step self (AddTo 1 alice (TierMember Tier.S))
    = Returns (SUCCESS, self') /\
    tierlists self !! "b"%string = Some Tierlist_init /\
    currently_active self <> Some "b"%string /\
    tierlists self' !! "b"%string = Some Tierlist_init.
Proof.
  intros alice lists self. eexists.
  split; [reflexivity|]. split; [reflexivity|]. split; [discriminate|].
  eapply (inactive_lists_are_untouched self _ (AddTo 1 alice (TierMember Tier.S)));
    [reflexivity | reflexivity | discriminate].
Defined.

(** X10.  With a list active, [remove_from_tierlist] returns
    [USER_NOT_FOUND] and leaves the manager as it was when no tier of the
    active list holds the identifier; otherwise it returns [SUCCESS], keeps
    the list active and stores the list with the member removed. *)
Theorem remove_from_tierlist_result (self : TierlistManager) (active : string)
  (tl : Tierlist) (_id : Z) :
  currently_active self = Some active ->
  tierlists self !! active = Some tl ->
  (~ is_member tl _id ->
   remove_from_tierlist self _id = Returns (USER_NOT_FOUND, self)) /\
  (is_member tl _id ->
   exists self',
     remove_from_tierlist self _id = Returns (SUCCESS, self') /\
     currently_active self' = Some active /\
     tierlists self' !! active = Some (snd (remove_member tl _id))).
Proof.
  intros Hactive Htl. unfold remove_from_tierlist. rewrite Hactive, Htl.
  pose proof (remove_member_found tl _id) as Hfound.
  destruct (remove_member tl _id) as [found tl'] eqn:Hrm. cbn [fst snd] in *.
  split.
  - intros Hnot. destruct found; [exfalso; apply Hnot, Hfound; reflexivity|].
    simpl. rewrite (remove_member_not_found tl _id) in Hrm by exact Hnot.
    injection Hrm as <-. now rewrite (write_back_same self active tl).
  - intros Hmem. apply Hfound in Hmem as ->. simpl. eexists.
    split; [reflexivity|]. simpl. rewrite lookup_insert_eq. auto.
Qed.

(** Removing a stranger and removing the only member. *)
Lemma remove_from_tierlist_result_witness :
  let alice := mkMember "Alice" "uri1" in
  let tl := snd (add_member Tierlist_init 1 alice (TierMember Tier.S)) in
  let self := mkManager (<["a"%string := tl]> ∅) (Some "a"%string) in
  (~ is_member tl 2 /\
   remove_from_tierlist self 2 = Returns (USER_NOT_FOUND, self)) /\
  (is_member tl 1 /\
   exists self',
     remove_from_tierlist self 1 = Returns (SUCCESS, self') /\
     tierlists self' !! "a"%string = Some Tierlist_init).
Proof.
  intros alice tl self.
  destruct (remove_from_tierlist_result self "a" tl 1 eq_refl eq_refl) as [_ H1].
  destruct (remove_from_tierlist_result self "a" tl 2 eq_refl eq_refl) as [H2 _].
  assert (Hin : is_member tl 1) by (exists Tier.S; reflexivity).
  assert (Hout : ~ is_member tl 2)
    by (intros [t Ht]; destruct t; discriminate Ht).
  split; [split; [exact Hout | exact (H2 Hout)]|].
  split; [exact Hin|].
  destruct (H1 Hin) as (self' & Hrm & _ & Hlist).
  exists self'. split; [exact Hrm | exact Hlist].
Defined.

Section StoredLists.
Implicit Types (self : TierlistManager) (tl : Tierlist).

Lemma Tierlist_init_well_formed : well_formed Tierlist_init.
Proof. split; [apply Tierlist_init_unique | apply Tierlist_init_keys_distinct]. Qed.

Lemma run_call_well_formed tl c : well_formed tl -> well_formed (run_call tl c).
Proof.
  intros [Hu Hk]. split.
  - apply (run_calls_unique [c] tl Hu).
  - apply (run_calls_keys_distinct [c] tl Hk).
Qed.

Lemma manager_step_well_formed self c code self' :
  (forall n tl, tierlists self !! n = Some tl -> well_formed tl) ->
  manager_step self c = Returns (code, self') ->
  forall n tl, tierlists self' !! n = Some tl -> well_formed tl.
Proof.
  intros Hall Hstep.
  assert (Hwrite : forall active tl0 tl',
             tierlists self !! active = Some tl0 -> well_formed tl' ->
             forall n tl, <[active := tl']> (tierlists self) !! n = Some tl ->
                          well_formed tl).
  { intros active tl0 tl' _ Hgood n tl.
    destruct (decide (active = n)) as [->|Hne].
    - rewrite lookup_insert_eq. now intros [= <-].
    - rewrite lookup_insert_ne by exact Hne. apply Hall. }
  destruct c as [name| |i d tv|i]; simpl in Hstep.
  - unfold begin_tierlist in Hstep.
    destruct (currently_active self) as [a|].
    + injection Hstep as _ <-. exact Hall.
    + destruct (tierlists self !! name) as [tl0|] eqn:Hn;
        injection Hstep as _ <-; simpl; [exact Hall|].
      intros n tl. destruct (decide (name = n)) as [->|Hne].
      * rewrite lookup_insert_eq. intros [= <-]. apply Tierlist_init_well_formed.
      * rewrite lookup_insert_ne by exact Hne. apply Hall.
  - unfold end_tierlist in Hstep.
    destruct (currently_active self); injection Hstep as _ <-; exact Hall.
  - unfold add_to_tierlist in Hstep.
    destruct (currently_active self) as [a|];
      [|injection Hstep as _ <-; exact Hall].
    destruct (tierlists self !! a) as [tl0|] eqn:Ha; [|discriminate].
    pose proof (run_call_well_formed tl0 (CallAdd i d tv) (Hall a tl0 Ha)) as Hg.
    simpl in Hg. destruct (add_member tl0 i d tv) as [ok tl'].
    destruct ok; simpl in Hstep; injection Hstep as _ <-;
      exact (Hwrite a tl0 tl' Ha Hg).
  - unfold remove_from_tierlist in Hstep.
    destruct (currently_active self) as [a|];
      [|injection Hstep as _ <-; exact Hall].
    destruct (tierlists self !! a) as [tl0|] eqn:Ha; [|discriminate].
    pose proof (run_call_well_formed tl0 (CallRemove i) (Hall a tl0 Ha)) as Hg.
    simpl in Hg. destruct (remove_member tl0 i) as [found tl'].
    destruct found; simpl in Hstep; injection Hstep as _ <-;
      exact (Hwrite a tl0 tl' Ha Hg).
Qed.

Lemma manager_run_well_formed calls : forall self self',
  (forall n tl, tierlists self !! n = Some tl -> well_formed tl) ->
  manager_run self calls = Returns self' ->
  forall n tl, tierlists self' !! n = Some tl -> well_formed tl.
Proof.
  induction calls as [|c calls IH]; intros self self' Hall; simpl.
  - now intros [= <-].
  - destruct (manager_step self c) as [[code self1]|e] eqn:Hstep; [|discriminate].
    apply IH. eapply manager_step_well_formed; eassumption.
Qed.
End StoredLists.

(** X11.  Every tierlist stored by a manager that was run from
    [TierlistManager()] keeps an identifier in at most one tier, and at
    most once in it. *)
Theorem stored_tierlists_keep_members_unique (calls : list manager_call)
  (self : TierlistManager) (name : string) (tl : Tierlist) :
  manager_run TierlistManager_init calls = Returns self ->
  tierlists self !! name = Some tl ->
  (forall _id t1 t2, holds tl t1 _id -> holds tl t2 _id -> t1 = t2) /\
  (forall t, NoDup (map fst (tiers tl t))).
Proof.
  intros Hrun Hname. change (well_formed tl).
  apply (manager_run_well_formed calls TierlistManager_init self) with name;
    try assumption.
  intros n tl0 H. simpl in H. rewrite lookup_empty in H. discriminate.
Qed.

(** After a move from S to B, B is the only tier holding the member. *)
Lemma stored_tierlists_keep_members_unique_witness :
  let alice := mkMember "Alice" "uri1" in
  let calls := [Begin "a"; AddTo 1 alice (TierMember Tier.S);
                AddTo 1 alice (TierMember Tier.B)] in
  exists self tl,
    manager_run TierlistManager_init calls = Returns self /\
    tierlists self !! "a"%string = Some tl /\
    (holds tl Tier.B 1 /\ forall t, holds tl t 1 -> t = Tier.B).
Proof.
  intros alice calls. eexists _, _.
  split; [reflexivity|]. split; [reflexivity|].
  split; [reflexivity|]. intros t Ht.
  refine (proj1 (stored_tierlists_keep_members_unique calls _ "a" _
                   eq_refl eq_refl) 1 t Tier.B Ht _).
  reflexivity.
Defined.

(** ** TierlistRenderer: the size of the bands and of the canvas *)

Section LayoutMore.
Variable truetype : string -> Z -> option font.
Variable self : TierlistRenderer.
Hypothesis init : self = TierlistRenderer_init truetype.

Lemma init_height_at_least n :
  0 <= n -> 120 <= _calc_tier_height self n /\
            (0 < n -> 140 <= _calc_tier_height self n).
Proof.
  intros Hn. rewrite (init_calc_tier_height truetype self init).
  destruct (Z.eqb_spec n 0) as [->|Hn0]; [lia|].
  pose proof (ceil_truediv_pos_mono 1 n 7 ltac:(lia) ltac:(lia) ltac:(lia)) as H.
  change (Float.ceil (Float.truediv 1 7)) with 1 in H. lia.
Qed.

Lemma total_canvas_height_sum (r : TierlistRenderer) tierlist :
  total_canvas_height r tierlist =
  tier_heights r tierlist Tier.S + tier_heights r tierlist Tier.A
  + tier_heights r tierlist Tier.B + tier_heights r tierlist Tier.C
  + tier_heights r tierlist Tier.D + tier_heights r tierlist Tier.F.
Proof.
  unfold total_canvas_height, tier_heights, tiers_items, Tier.all.
  cbn [map fold_left]. lia.
Qed.
End LayoutMore.

(** X12.  With the constants of [__init__], every tier band is at least
    120 pixels high, so the canvas of any tierlist is at least 720 pixels
    high; the canvas of the empty tierlist is exactly 720 pixels high. *)
Theorem canvas_is_at_least_six_bands (truetype : string -> Z -> option font)
  (tierlist : Tierlist) :
  let self := TierlistRenderer_init truetype in
  (forall tier, 120 <= tier_heights self tierlist tier) /\
  720 <= total_canvas_height self tierlist /\
  total_canvas_height self Tierlist_init = 720.
Proof.
  intros self.
  assert (H : forall tl tier, 120 <= tier_heights self tl tier).
  { intros tl tier. unfold tier_heights.
    apply (init_height_at_least truetype self eq_refl). unfold dict_len. lia. }
  split; [apply H|]. split.
  - rewrite total_canvas_height_sum.
    pose proof (H tierlist Tier.S). pose proof (H tierlist Tier.A).
    pose proof (H tierlist Tier.B). pose proof (H tierlist Tier.C).
    pose proof (H tierlist Tier.D). pose proof (H tierlist Tier.F). lia.
  - rewrite total_canvas_height_sum. unfold tier_heights.
    rewrite !(init_calc_tier_height truetype self eq_refl). reflexivity.
Qed.

(** X13.  With the constants of [__init__], the grid cell of every member
    of a tier of at most [7 * 2^51] members lies inside the tier's band: to
    the right of the label column, with the avatar inside the canvas
    width, below the top of the band, and with avatar and name row above
    the bottom of the band. *)
Theorem grid_cell_lies_in_band (truetype : string -> Z -> option font)
  (current_y index n : Z) :
  let self := TierlistRenderer_init truetype in
  0 <= index < n -> n <= 7 * 2 ^ 51 ->
  label_width self < x_pos self index /\
  x_pos self index + avatar_size self <= total_width self /\
  current_y < y_pos self current_y index /\
  y_pos self current_y index + avatar_size self + text_height self
  < current_y + _calc_tier_height self n.
Proof.
  intros self Hindex Hn.
  rewrite (init_x_pos truetype self eq_refl), (init_y_pos truetype self eq_refl).
  rewrite (init_calc_tier_height truetype self eq_refl).
  destruct (init_constants truetype self eq_refl)
    as (-> & -> & _ & -> & _ & -> & _).
  destruct (Z.eqb_spec n 0); [lia|].
  rewrite ceil_truediv_7_exact by lia. unfold exact_ceil_div.
  pose proof (Z.mod_pos_bound index 7 ltac:(lia)).
  pose proof (Z.div_pos index 7 ltac:(lia) ltac:(lia)).
  pose proof (Z.mul_div_le index 7 ltac:(lia)).
  assert (- n / 7 < - (index / 7))
    by (apply Z.div_lt_upper_bound; lia).
  lia.
Qed.

(** The last of ten members, in the second row. *)
Lemma grid_cell_lies_in_band_witness :
  let self := TierlistRenderer_init (fun _ _ => None) in
  (0 <= 9 < 10 /\ 10 <= 7 * 2 ^ 51) /\
  x_pos self 9 + avatar_size self <= total_width self /\
  y_pos self 0 9 + avatar_size self + text_height self
  < 0 + _calc_tier_height self 10.
Proof.
  intros self. split; [lia|].
  destruct (grid_cell_lies_in_band (fun _ _ => None) 0 9 10) as (_ & Hx & _ & Hy);
    [lia | lia |].
  split; [exact Hx | exact Hy].
Defined.

(** ** TierlistRenderer: what [_draw] puts on the canvas *)

Section DrawMore.
Context {BytesIO Image : Type}.
Variable open_rgba : BytesIO -> option Image.
Variable resize : Image -> Z -> Z -> Image.
Variable self : TierlistRenderer.
Variable avatar_images : gmap Z BytesIO.

(** Without [font_name], the member loop raises at the first member whose
    avatar was fetched; with no such member it draws nothing. *)
Lemma draw_members_not_fetched members : forall current_y index,
  existsb (fetched avatar_images) members = false ->
  draw_members open_rgba resize self avatar_images current_y index members
  = Returns [].
Proof.
  induction members as [|[uid m] rest IH]; intros cy k; simpl; [reflexivity|].
  unfold fetched at 1. simpl.
  destruct (avatar_images !! uid); simpl; [discriminate|].
  intros H. now rewrite IH.
Qed.

Lemma draw_members_raises members : forall current_y index,
  font_name self = None ->
  existsb (fetched avatar_images) members = true ->
  draw_members open_rgba resize self avatar_images current_y index members
  = Raises AttributeError.
Proof.
  induction members as [|[uid m] rest IH]; intros cy k Hf; simpl;
    [discriminate|].
  unfold fetched at 1. simpl. unfold get_font_name. rewrite Hf.
  destruct (avatar_images !! uid); simpl; [reflexivity|].
  intros H. now rewrite IH.
Qed.

Lemma draw_tiers_raises heights items : forall current_y,
  font_name self = None ->
  existsb (fun item => existsb (fetched avatar_images) (snd item)) items = true ->
  draw_tiers open_rgba resize self avatar_images heights current_y items
  = Raises AttributeError.
Proof.
  induction items as [|[t ms] rest IH]; intros cy Hf; simpl; [discriminate|].
  destruct (existsb (fetched avatar_images) ms) eqn:E; simpl.
  - intros _. now rewrite draw_members_raises.
  - intros H. rewrite draw_members_not_fetched by exact E. simpl.
    now rewrite IH.
Qed.

Lemma draw_tiers_not_fetched heights items : forall current_y,
  existsb (fun item => existsb (fetched avatar_images) (snd item)) items = false ->
  exists ops,
    draw_tiers open_rgba resize self avatar_images heights current_y items
    = Returns ops.
Proof.
  induction items as [|[t ms] rest IH]; intros cy; simpl; [eauto|].
  intros H. apply orb_false_iff in H as [Hms Hrest].
  rewrite draw_members_not_fetched by exact Hms. simpl.
  destruct (IH (cy + heights t) Hrest) as [ops ->]. simpl. eauto.
Qed.

(** The member loop draws no rectangle and no line; it draws one name
    label per fetched avatar and one paste per decoded avatar. *)
Lemma draw_members_shape members : forall current_y index ops,
  draw_members open_rgba resize self avatar_images current_y index members
  = Returns ops ->
  omap box_of ops = [] /\ omap line_of ops = [] /\
  length (List.filter is_name_label ops)
  = length (List.filter (fetched avatar_images) members) /\
  length (List.filter is_paste ops)
  = length (List.filter (decoded open_rgba avatar_images) members).
Proof.
  induction members as [|[uid m] rest IH]; intros cy k ops; simpl.
  - intros [= <-]. repeat split.
  - unfold fetched at 1, decoded at 1. simpl.
    destruct (avatar_images !! uid) as [data|]; simpl.
    + unfold get_font_name. destruct (font_name self); simpl; [|discriminate].
      destruct (draw_members _ _ _ _ cy (k + 1) rest) as [ops'|e] eqn:Hrest;
        simpl; [|discriminate].
      intros [= <-]. destruct (IH _ _ _ Hrest) as (Hb & Hl & Hn & Hp).
      rewrite !omap_app, !List.filter_app, !length_app, Hb, Hl, Hn, Hp.
      destruct (open_rgba data); repeat split.
    + destruct (draw_members _ _ _ _ cy (k + 1) rest) as [ops'|e] eqn:Hrest;
        simpl; [|discriminate].
      intros [= <-]. exact (IH _ _ _ Hrest).
Qed.

Lemma draw_tiers_shape heights (members_of : Tier -> list (Z * Member)) todo :
  forall current_y ops,
  draw_tiers open_rgba resize self avatar_images heights current_y
    (map (fun t => (t, members_of t)) todo) = Returns ops ->
  omap box_of ops
  = map (fun '(top, bottom) => (0, top, label_width self, bottom))
        (bands heights current_y todo) /\
  omap line_of ops
  = map (fun '(top, bottom) => (0, bottom, total_width self, bottom))
        (bands heights current_y todo) /\
  length (List.filter is_name_label ops)
  = length (List.filter (fetched avatar_images)
              (concat (map members_of todo))) /\
  length (List.filter is_paste ops)
  = length (List.filter (decoded open_rgba avatar_images)
              (concat (map members_of todo))).
Proof.
  induction todo as [|t rest IH]; intros cy ops; simpl.
  - intros [= <-]. repeat split.
  - destruct (draw_members _ _ _ _ cy 0 (members_of t)) as [mops|e] eqn:Hms;
      simpl; [|discriminate].
    destruct (draw_tiers _ _ _ _ heights (cy + heights t) _) as [ops'|e]
      eqn:Hrest; simpl; [|discriminate].
    intros [= <-].
    destruct (draw_members_shape _ _ _ _ Hms) as (Hb & Hl & Hn & Hp).
    destruct (IH _ _ Hrest) as (Hb' & Hl' & Hn' & Hp').
    simpl. rewrite !omap_app, !List.filter_app, !length_app. simpl.
    change (list_omap _ _ box_of ops') with (omap box_of ops').
    change (list_omap _ _ line_of ops') with (omap line_of ops').
    rewrite Hb, Hl, Hn, Hp, Hb', Hl', Hn', Hp'. repeat split.
Qed.



End DrawMore.

Lemma all_members_by_tier (tierlist : Tierlist) :
  all_members tierlist = concat (map (tiers tierlist) Tier.all).
Proof. reflexivity. Qed.

Lemma existsb_concat {X : Type} (p : X -> bool) (ls : list (list X)) :
  existsb p (concat ls) = existsb (existsb p) ls.
Proof.
  induction ls as [|l ls IH]; simpl; [reflexivity|].
  now rewrite existsb_app, IH.
Qed.

(** X14.  When [__init__] loads arial.ttf, it sets [font_names] and not
    the [font_name] attribute that [_draw] reads: [_draw] then raises
    [AttributeError] as soon as one member of the tierlist has a fetched
    avatar, and returns a canvas only when none has. *)
Theorem draw_raises_once_an_avatar_is_fetched {BytesIO Image : Type}
  (open_rgba : BytesIO -> option Image) (resize : Image -> Z -> Z -> Image)
  (truetype : string -> Z -> option font) (label names : font)
  (avatar_images : gmap Z BytesIO) (tierlist : Tierlist) :
  truetype "arial.ttf" 40 = Some label ->
  truetype "arial.ttf" 15 = Some names ->
  let self := TierlistRenderer_init truetype in
  let some_fetched := existsb (fetched avatar_images) (all_members tierlist) in
  font_names self = Some names /\ font_name self = None /\
  (some_fetched = true ->
   _draw open_rgba resize self avatar_images tierlist = Raises AttributeError) /\
  (some_fetched = false ->
   exists canvas,
     _draw open_rgba resize self avatar_images tierlist = Returns canvas).
Proof.
  intros H40 H15 self some_fetched.
  assert (Hnames : font_names self = Some names /\ font_name self = None).
  { unfold self, TierlistRenderer_init. rewrite H40, H15. split; reflexivity. }
  split; [apply Hnames|]. split; [apply Hnames|].
  assert (Hsome : some_fetched =
                  existsb (fun item => existsb (fetched avatar_images) (snd item))
                          (tiers_items tierlist)).
  { unfold some_fetched, all_members. rewrite existsb_concat.
    induction (tiers_items tierlist) as [|item items IH]; simpl; [reflexivity|].
    now rewrite IH. }
  rewrite Hsome. unfold _draw. split.
  - intros H. rewrite draw_tiers_raises; [reflexivity | apply Hnames | exact H].
  - intros H.
    destruct (draw_tiers_not_fetched open_rgba resize self avatar_images
                (tier_heights self tierlist) (tiers_items tierlist) 0 H)
      as [ops ->].
    simpl. eauto.
Qed.

(** With arial.ttf found: one fetched avatar, and none. *)
Lemma draw_raises_once_an_avatar_is_fetched_witness :
  let truetype (file : string) (size : Z) := Some (TrueType file size) in
  let self := TierlistRenderer_init truetype in
  let alice := mkMember "Alice" "uri1" in
  let tierlist := run_calls [CallAdd 1 alice (TierMember Tier.S)] Tierlist_init in
  let draw (avatar_images : gmap Z string) :=
    _draw (fun data : string => Some data) (fun img _ _ => img) self
      avatar_images tierlist in
  draw (<[1 := "png"%string]> ∅) = Raises AttributeError /\
  exists canvas, draw ∅ = Returns canvas.
Proof.
  intros truetype self alice tierlist draw. split.
  - apply (draw_raises_once_an_avatar_is_fetched _ _ truetype
             (TrueType "arial.ttf" 40) (TrueType "arial.ttf" 15));
      reflexivity.
  - apply (draw_raises_once_an_avatar_is_fetched _ _ truetype
             (TrueType "arial.ttf" 40) (TrueType "arial.ttf" 15));
      reflexivity.
Defined.

(** X15.  On every canvas [_draw] returns, the six label boxes tile the
    label column from the top of the canvas to its bottom, in the order S,
    A, B, C, D, F, each as high as its tier, and the six separator lines
    run over the full width at the bottom of each band; the canvas is as
    wide as [total_width]. *)
Theorem label_boxes_tile_the_canvas {BytesIO Image : Type}
  (open_rgba : BytesIO -> option Image) (resize : Image -> Z -> Z -> Image)
  (self : TierlistRenderer) (avatar_images : gmap Z BytesIO)
  (tierlist : Tierlist) (canvas : Canvas Image) :
  _draw open_rgba resize self avatar_images tierlist = Returns canvas ->
  let h := tier_heights self tierlist in
  let y1 := h Tier.S in
  let y2 := y1 + h Tier.A in
  let y3 := y2 + h Tier.B in
  let y4 := y3 + h Tier.C in
  let y5 := y4 + h Tier.D in
  let y6 := y5 + h Tier.F in
  let w := label_width self in
  let W := total_width self in
  omap box_of (drawn canvas)
  = [(0, 0, w, y1); (0, y1, w, y2); (0, y2, w, y3);
     (0, y3, w, y4); (0, y4, w, y5); (0, y5, w, y6)] /\
  omap line_of (drawn canvas)
  = [(0, y1, W, y1); (0, y2, W, y2); (0, y3, W, y3);
     (0, y4, W, y4); (0, y5, W, y5); (0, y6, W, y6)] /\
  canvas_width canvas = W /\
  canvas_height canvas = y6.
Proof.
  unfold _draw.
  destruct (draw_tiers _ _ _ _ _ _ _) as [ops|e] eqn:Hops; simpl; [|discriminate].
  intros [= <-]. cbn [drawn canvas_width canvas_height].
  destruct (draw_tiers_shape open_rgba resize self avatar_images
              (tier_heights self tierlist) (tiers tierlist) Tier.all 0 ops Hops)
    as (Hb & Hl & _ & _).
  rewrite Hb, Hl, total_canvas_height_sum. repeat split.
Qed.

(** The empty tierlist: six bands of 120 pixels. *)
Lemma label_boxes_tile_the_canvas_witness :
  let self := TierlistRenderer_init (fun _ _ => None) in
  exists canvas,
    _draw (fun data : string => Some data) (fun img _ _ => img) self ∅
      Tierlist_init = Returns canvas /\
    omap box_of (drawn canvas)
    = [(0, 0, 150, 120); (0, 120, 150, 240); (0, 240, 150, 360);
       (0, 360, 150, 480); (0, 480, 150, 600); (0, 600, 150, 720)] /\
    canvas_height canvas = 720.
Proof.
  intros self. eexists. split; [vm_compute; reflexivity|].
  refine (let H := label_boxes_tile_the_canvas
                     (fun data : string => Some data) (fun img _ _ => img)
                     self ∅ Tierlist_init _ eq_refl in _).
  split; [exact (proj1 H) | exact (proj2 (proj2 (proj2 H)))].
Defined.



(** ** TierlistRenderer: the name labels *)

Section StringFacts.
Local Open Scope nat_scope.

Lemma length_append (s1 s2 : string) :
  String.length (s1 +:+ s2) = String.length s1 + String.length s2.
Proof. induction s1 as [|c s1 IH]; simpl; [reflexivity | now rewrite IH]. Qed.

Lemma length_substring_0 (n : nat) : forall s : string,
  n <= String.length s -> String.length (String.substring 0 n s) = n.
Proof.
  induction n as [|n IH]; intros [|c s] H; simpl in *;
    try lia; try reflexivity.
  rewrite IH; lia.
Qed.
End StringFacts.

(** X17.  The label under an avatar is the member's name when the name
    has at most 10 characters; a longer name is cut to its first 9
    characters followed by two dots, 11 characters in all, so no label is
    longer than 11 characters. *)
Theorem display_name_is_short (member : Member) :
  ((String.length (name member) <= 10)%nat ->
   display_name member = name member) /\
  ((10 < String.length (name member))%nat ->
   display_name member = String.substring 0 9 (name member) +:+ ".." /\
   String.length (display_name member) = 11%nat) /\
  (String.length (display_name member) <= 11)%nat.
Proof.
  unfold display_name.
  destruct (Z.ltb_spec 10 (Z.of_nat (String.length (name member)))) as [Hlong|Hshort].
  - assert (Hlen : String.length
                     (String.substring 0 9 (name member) +:+ "..") = 11%nat).
    { rewrite length_append, length_substring_0 by lia. reflexivity. }
    split; [lia|]. split; [auto|]. rewrite Hlen. lia.
  - split; [reflexivity|]. split; [lia|]. lia.
Qed.

(** Names of 10 and of 11 characters. *)
Lemma display_name_is_short_witness :
  let long := mkMember "Bartholomew" "uri" in
  let short := mkMember "Bartholome" "uri" in
  ((String.length (name short) <= 10)%nat /\ display_name short = "Bartholome") /\
  ((10 < String.length (name long))%nat /\ display_name long = "Bartholom..").
Proof.
  intros long short.
  destruct (display_name_is_short short) as (Hshort & _ & _).
  destruct (display_name_is_short long) as (_ & Hlong & _).
  split.
  - split; [simpl; lia|]. apply Hshort. simpl. lia.
  - split; [simpl; lia|]. apply Hlong. simpl. lia.
Defined.

(** ** TierlistRenderer: the downloads of [render] *)

Section FetchFacts.
Context {BytesIO : Type}.
Implicit Types (l : list (Z * Member)) (tl : Tierlist).

Lemma dict_get_app k l l' :
  dict_get k (l ++ l') =
  match dict_get k l with Some x => Some x | None => dict_get k l' end.
Proof.
  induction l as [|[k' v] l IH]; simpl; [reflexivity|].
  destruct (k' =? k); [reflexivity | exact IH].
Qed.

Lemma dict_get_keys k l : dict_get k l = None <-> k ∉ map fst l.
Proof.
  rewrite <- dict_contains_keys, dict_get_contains.
  destruct (dict_get k l); split; try tauto; try discriminate.
  - intros H. exfalso. apply H. eauto.
  - intros _ [? ?]. discriminate.
Qed.

(** The results of the downloads, written into the map one after the
    other, are the map the renderer draws with. *)
Lemma collect_gather_downloads (session : string -> http_result BytesIO) tl :
  collect_avatars (gather_downloads session tl)
  = fetch_avatars (fun url => snd (_download session 0 url)) tl.
Proof.
  unfold collect_avatars, gather_downloads, download_tasks, fetch_avatars.
  generalize (∅ : gmap Z BytesIO).
  induction (concat (map snd (tiers_items tl))) as [|[uid m] l IH];
    intros acc; simpl; [reflexivity|].
  rewrite <- IH. f_equal. unfold _download.
  destruct (session (avatar_url m)) as [status [data|]|]; simpl;
    try destruct (status =? 200); reflexivity.
Qed.

(** With distinct identifiers, an identifier's entry depends on its own
    download alone. *)
Lemma fetch_lookup (download : string -> option BytesIO) l :
  NoDup (map fst l) ->
  forall (acc : gmap Z BytesIO) uid,
    fold_left (fun avatar_images '(uid, member) =>
                 match download (avatar_url member) with
                 | Some data => <[uid := data]> avatar_images
                 | None => avatar_images
                 end) l acc !! uid
    = match dict_get uid l with
      | Some member =>
          match download (avatar_url member) with
          | Some data => Some data
          | None => acc !! uid
          end
      | None => acc !! uid
      end.
Proof.
  induction l as [|[k m] l IH]; simpl; [reflexivity|].
  rewrite NoDup_cons. intros [Hnotin Hnd] acc uid. rewrite (IH Hnd).
  destruct (Z.eqb_spec k uid) as [->|Hne].
  - apply dict_get_keys in Hnotin. rewrite Hnotin.
    destruct (download (avatar_url m)); [apply lookup_insert_eq | reflexivity].
  - destruct (download (avatar_url m)); [|reflexivity].
    rewrite lookup_insert_ne by exact Hne. reflexivity.
Qed.

Lemma keys_of_tiers tl (todo : list Tier) x :
  x ∈ map fst (concat (map (tiers tl) todo)) ->
  exists t, t ∈ todo /\ x ∈ map fst (tiers tl t).
Proof.
  induction todo as [|t rest IH]; simpl.
  - intros H. now apply elem_of_nil in H.
  - rewrite map_app, elem_of_app. intros [H|H].
    + exists t. split; [apply elem_of_cons; auto | exact H].
    + destruct (IH H) as (t' & Hin & Hx). exists t'.
      split; [apply elem_of_cons; auto | exact Hx].
Qed.

Lemma tiers_NoDup tl (todo : list Tier) :
  well_formed tl -> NoDup todo ->
  NoDup (map fst (concat (map (tiers tl) todo))).
Proof.
  intros [Huniq Hkeys]. induction todo as [|t rest IH]; simpl.
  - intros _. apply NoDup_nil_2.
  - rewrite NoDup_cons. intros [Hnotin Hnd].
    rewrite map_app, NoDup_app. split; [apply Hkeys|]. split; [|auto].
    intros x Hx Hx'. destruct (keys_of_tiers tl rest x Hx') as (t' & Hin & Hxt').
    apply dict_contains_keys in Hx, Hxt'.
    assert (t = t') by (apply (Huniq x); assumption). subst t'. contradiction.
Qed.

Lemma all_members_NoDup tl :
  well_formed tl -> NoDup (map fst (all_members tl)).
Proof.
  intros H. rewrite all_members_by_tier. apply tiers_NoDup; [exact H|].
  unfold Tier.all.
  repeat (apply NoDup_cons;
          split; [rewrite ?elem_of_cons, elem_of_nil; intuition discriminate|]).
  apply NoDup_nil_2.
Qed.

Lemma dict_get_all_members tl uid member :
  well_formed tl ->
  dict_get uid (all_members tl) = Some member <->
  exists t, dict_get uid (tiers tl t) = Some member.
Proof.
  intros [Huniq _]. rewrite all_members_by_tier. unfold Tier.all.
  cbn [map concat]. rewrite !dict_get_app. cbn [dict_get]. split.
  - intros H.
    destruct (dict_get uid (tiers tl Tier.S)) eqn:ES; [exists Tier.S; congruence|].
    destruct (dict_get uid (tiers tl Tier.A)) eqn:EA; [exists Tier.A; congruence|].
    destruct (dict_get uid (tiers tl Tier.B)) eqn:EB; [exists Tier.B; congruence|].
    destruct (dict_get uid (tiers tl Tier.C)) eqn:EC; [exists Tier.C; congruence|].
    destruct (dict_get uid (tiers tl Tier.D)) eqn:ED; [exists Tier.D; congruence|].
    destruct (dict_get uid (tiers tl Tier.F)) eqn:EF; [exists Tier.F; congruence|].
    discriminate.
  - intros [t Ht].
    assert (Hnone : forall t', t' <> t -> dict_get uid (tiers tl t') = None).
    { intros t' Hne. destruct (dict_get uid (tiers tl t')) eqn:E; [|reflexivity].
      exfalso. apply Hne. apply (Huniq uid); unfold holds;
        apply dict_get_contains; [rewrite E | rewrite Ht]; eauto. }
    destruct t; rewrite ?Ht;
      repeat (rewrite Hnone by discriminate); try rewrite Ht; reflexivity.
Qed.
End FetchFacts.

(** X18.  For a tierlist reached from the empty one, the map [render]
    builds from the gathered downloads holds [data] for an identifier
    exactly when a member with that identifier is in some tier and its own
    avatar URL answered with status 200 and body [data]: other members'
    failed downloads change nothing for it. *)
Theorem avatar_is_fetched_iff_own_url_answers {BytesIO : Type}
  (session : string -> http_result BytesIO) (calls : list tierlist_call)
  (uid : Z) (data : BytesIO) :
  let tierlist := run_calls calls Tierlist_init in
  let avatar_images := collect_avatars (gather_downloads session tierlist) in
  avatar_images !! uid = Some data <->
  exists tier member,
    dict_get uid (tiers tierlist tier) = Some member /\
    session (avatar_url member) = Response 200 (Some data).
Proof.
  intros tierlist avatar_images.
  assert (Hwf : well_formed tierlist).
  { split; [apply run_calls_unique, Tierlist_init_unique
           | apply run_calls_keys_distinct, Tierlist_init_keys_distinct]. }
  unfold avatar_images. rewrite collect_gather_downloads.
  set (download := fun url => snd (_download session 0 url)).
  assert (Hlookup : fetch_avatars download tierlist !! uid
                    = match dict_get uid (all_members tierlist) with
                      | Some member => download (avatar_url member)
                      | None => None
                      end).
  { unfold fetch_avatars. fold (all_members tierlist).
    rewrite (fetch_lookup download) by now apply all_members_NoDup.
    rewrite lookup_empty.
    destruct (dict_get uid (all_members tierlist)) as [member|]; [|reflexivity].
    now destruct (download (avatar_url member)). }
  rewrite Hlookup. unfold download. split.
  - destruct (dict_get uid (all_members tierlist)) as [member|] eqn:E;
      [|discriminate].
    apply (dict_get_all_members tierlist uid member Hwf) in E as [tier Htier].
    unfold _download.
    destruct (session (avatar_url member)) as [status [body|]|] eqn:Hs; simpl;
      try destruct (Z.eqb_spec status 200) as [->|]; try discriminate.
    intros [= ->]. exists tier, member. split; [exact Htier | exact Hs].
  - intros (tier & member & Htier & Hs).
    assert (E : dict_get uid (all_members tierlist) = Some member)
      by (apply dict_get_all_members; eauto).
    rewrite E. unfold _download. rewrite Hs. reflexivity.
Qed.

Lemma render_returns {BytesIO Image : Type}
  (open_rgba : BytesIO -> option Image) (resize : Image -> Z -> Z -> Image)
  (self : TierlistRenderer) (fnt : font)
  (download : string -> option BytesIO) (tierlist : Tierlist) :
  font_name self = Some fnt ->
  exists ops,
    render open_rgba resize self download tierlist
    = Returns (mkCanvas (total_width self) (total_canvas_height self tierlist)
                 (30, 30, 30) ops).
Proof.
  intros Hf. unfold render, _draw.
  destruct (draw_tiers_returns open_rgba resize self
              (fetch_avatars download tierlist)
              fnt (tier_heights self tierlist) (tiers_items tierlist) 0 Hf)
    as [ops ->].
  simpl. eauto.
Qed.

(** X19.  With [font_name] set, [render] returns a canvas whatever the
    downloads do, and the size of the canvas does not depend on them:
    [total_width] wide and as high as the tier heights add up to. *)
Theorem render_survives_failed_downloads {BytesIO Image : Type}
  (open_rgba : BytesIO -> option Image) (resize : Image -> Z -> Z -> Image)
  (self : TierlistRenderer) (fnt : font)
  (session : string -> http_result BytesIO) (tierlist : Tierlist) :
  font_name self = Some fnt ->
  exists canvas,
    render open_rgba resize self (fun url => snd (_download session 0 url))
      tierlist = Returns canvas /\
    canvas_width canvas = total_width self /\
    canvas_height canvas = total_canvas_height self tierlist.
Proof.
  intros Hf.
  destruct (render_returns open_rgba resize self fnt
              (fun url => snd (_download session 0 url)) tierlist Hf)
    as [ops ->].
  eexists. repeat split.
Qed.

(** Every download raises. *)
Lemma render_survives_failed_downloads_witness :
  let self := TierlistRenderer_init (fun _ _ => None) in
  let alice := mkMember "Alice" "uri1" in
  let tierlist := run_calls [CallAdd 1 alice (TierMember Tier.S)] Tierlist_init in
  let session (url : string) : http_result string := GetRaises in
  font_name self = Some DefaultFont /\
  exists canvas,
    render (fun data : string => Some data) (fun img _ _ => img) self
      (fun url => snd (_download session 0 url)) tierlist = Returns canvas /\
    canvas_height canvas = total_canvas_height self tierlist.
Proof.
  intros self alice tierlist session. split; [reflexivity|].
  destruct (render_survives_failed_downloads
              (fun data : string => Some data) (fun img _ _ => img) self
              DefaultFont session tierlist eq_refl) as (canvas & H & _ & Hh).
  exists canvas. split; assumption.
Defined.

(** Alice's URL answers 404, Bob's answers 200. *)
Lemma avatar_is_fetched_iff_own_url_answers_witness :
  let alice := mkMember "Alice" "uri1" in
  let bob := mkMember "Bob" "uri2" in
  let calls := [CallAdd 1 alice (TierMember Tier.S);
                CallAdd 2 bob (TierMember Tier.A)] in
  let session (url : string) : http_result string :=
    if String.eqb url "uri1" then Response 404 (Some "not found"%string)
    else Response 200 (Some "png"%string) in
  let avatar_images :=
    collect_avatars (gather_downloads session (run_calls calls Tierlist_init)) in
  avatar_images !! 2 = Some "png"%string /\ avatar_images !! 1 = None.
Proof.
  intros alice bob calls session avatar_images. split.
  - apply (avatar_is_fetched_iff_own_url_answers session calls 2 "png").
    exists Tier.A, bob. split; reflexivity.
  - reflexivity.
Defined.

(** ** The commands *)

Lemma Tier_by_name_spec (s : string) (t : Tier) :
  Tier_by_name s = Some t <-> s = Tier.name t.
Proof.
  unfold Tier_by_name, Tier.all. cbn [List.find Tier.name]. split.
  - repeat match goal with
           | |- context [String.eqb ?a s] =>
               destruct (String.eqb_spec a s) as [<-|?]
           end; intros [= <-]; reflexivity.
  - intros ->. destruct t; reflexivity.
Qed.

(** X20.  On a manager run from [TierlistManager()], the [add] command
    answers "Invalid Tier." and changes nothing when the tier name is none
    of S, A, B, C, D, F; with a tier name and no active list it answers
    "Error: TIERLIST_NOT_ACTIVE" and changes nothing; with a tier name and
    an active list it answers "Added <name> to Tier <tier>" and the active
    list then maps the member's id, in that tier, to its display name and
    avatar URL.  It never raises and never answers INVALID_TIER. *)
Theorem add_command_answers {Image : Type} (calls : list manager_call)
  (manager : TierlistManager) (member : discord.Member) (tier_value : string) :
  manager_run TierlistManager_init calls = Returns manager ->
  let user_data :=
    mkMember (discord.display_name member) (discord.display_avatar_url member) in
  let answer := @add_command Image manager member tier_value in
  ((forall tier, tier_value <> Tier.name tier) ->
   answer = Returns (send_message "Invalid Tier.", manager)) /\
  (forall tier,
      tier_value = Tier.name tier ->
      (currently_active manager = None ->
       answer = Returns (send_message "Error: TIERLIST_NOT_ACTIVE", manager)) /\
      (forall active,
          currently_active manager = Some active ->
          exists manager' tierlist,
            answer = Returns (send_message
                                ("Added " +:+ discord.display_name member
                                 +:+ " to Tier " +:+ tier_value), manager') /\
            currently_active manager' = Some active /\
            tierlists manager' !! active = Some tierlist /\
            dict_get (discord.id member) (tiers tierlist tier) = Some user_data)).
Proof.
  intros Hrun user_data answer. unfold answer, add_command. split.
  - intros Hnone. destruct (Tier_by_name tier_value) as [t|] eqn:E; [|reflexivity].
    apply Tier_by_name_spec in E. now apply Hnone in E.
  - intros tier Htier. apply Tier_by_name_spec in Htier as Hfind. rewrite Hfind.
    unfold add_to_tierlist. split.
    + intros ->. reflexivity.
    + intros active Hactive. rewrite Hactive.
      destruct (manager_run_active_is_key calls manager Hrun active Hactive)
        as [tl ->].
      cbn [add_member negb bind].
      eexists _, _. split; [rewrite Htier; reflexivity|].
      cbn [currently_active tierlists]. split; [reflexivity|].
      rewrite lookup_insert_eq. split; [reflexivity|].
      now rewrite tiers_set_tier_eq, dict_get_set, Z.eqb_refl.
Qed.

(** A valid and an invalid tier name after [begin("test")]. *)
Lemma add_command_answers_witness :
  let member := discord.mkMember 7 "Alice" "uri1" in
  exists manager manager',
    manager_run TierlistManager_init [Begin "test"] = Returns manager /\
    currently_active manager = Some "test"%string /\
    @add_command unit manager member "S"
    = Returns (send_message "Added Alice to Tier S", manager') /\
    @add_command unit manager member "Z"
    = Returns (send_message "Invalid Tier.", manager).
Proof.
  intros member. eexists _, _. split; [reflexivity|]. split; [reflexivity|].
  split; [reflexivity|].
  refine (proj1 (@add_command_answers unit [Begin "test"] _ member "Z" eq_refl) _).
  intros tier. destruct tier; discriminate.
Defined.

(** X21.  On a manager run from [TierlistManager()], with [font_name] set,
    the [show] command answers "No active tierlist." when no list is
    active and also when the active list has the empty name; with any
    other active name it answers with the file "tierlist.png" holding the
    render of the active list, and never raises. *)
Theorem show_command_answers {BytesIO Image : Type}
  (open_rgba : BytesIO -> option Image) (resize : Image -> Z -> Z -> Image)
  (renderer : TierlistRenderer) (fnt : font)
  (session : string -> http_result BytesIO)
  (calls : list manager_call) (manager : TierlistManager) :
  manager_run TierlistManager_init calls = Returns manager ->
  font_name renderer = Some fnt ->
  let answer := show_command open_rgba resize renderer session manager in
  let no_list := Returns (@send_message Image "No active tierlist.") in
  (currently_active manager = None -> answer = no_list) /\
  (currently_active manager = Some EmptyString -> answer = no_list) /\
  (forall active,
      currently_active manager = Some active -> active <> EmptyString ->
      exists tierlist canvas,
        tierlists manager !! active = Some tierlist /\
        render open_rgba resize renderer
          (fun url => snd (_download session 0 url)) tierlist = Returns canvas /\
        answer = Returns (send_file "tierlist.png" canvas)).
Proof.
  intros Hrun Hfont answer no_list. unfold answer, show_command.
  split; [intros ->; reflexivity|]. split; [intros ->; reflexivity|].
  intros active Hactive Hne. rewrite Hactive.
  destruct (String.eqb_spec active EmptyString) as [|_]; [contradiction|].
  destruct (manager_run_active_is_key calls manager Hrun active Hactive)
    as [tl Htl].
  rewrite Htl.
  destruct (render_returns open_rgba resize renderer fnt
              (fun url => snd (_download session 0 url)) tl Hfont)
    as [ops Hrender].
  rewrite Hrender. cbn [bind]. exists tl. eexists.
  split; [reflexivity|]. split; [exact Hrender | reflexivity].
Qed.

(** [show] after [begin] with the empty name and after [begin("test")]. *)
Lemma show_command_answers_witness :
  let renderer := TierlistRenderer_init (fun _ _ => None) in
  let session (url : string) : http_result string := GetRaises in
  let alice := mkMember "Alice" "uri1" in
  let show :=
    show_command (fun data : string => Some data) (fun img _ _ => img)
      renderer session in
  exists unnamed named,
    manager_run TierlistManager_init
      [Begin EmptyString; AddTo 1 alice (TierMember Tier.S)] = Returns unnamed /\
    currently_active unnamed = Some EmptyString /\
    show unnamed = Returns (send_message "No active tierlist.") /\
    manager_run TierlistManager_init
      [Begin "test"; AddTo 1 alice (TierMember Tier.S)] = Returns named /\
    exists canvas, show named = Returns (send_file "tierlist.png" canvas).
Proof.
  intros renderer session alice show. eexists _, _.
  split; [reflexivity|]. split; [reflexivity|]. split.
  - refine (proj1 (proj2 (show_command_answers
                            (fun data : string => Some data) (fun img _ _ => img)
                            renderer DefaultFont session
                            [Begin EmptyString; AddTo 1 alice (TierMember Tier.S)] _
                            eq_refl eq_refl)) eq_refl).
  - split; [reflexivity|].
    destruct (proj2 (proj2 (show_command_answers
                              (fun data : string => Some data)
                              (fun img _ _ => img) renderer DefaultFont session
                              [Begin "test"; AddTo 1 alice (TierMember Tier.S)] _
                              eq_refl eq_refl)) "test"%string eq_refl)
      as (tl & canvas & _ & _ & Hshow); [discriminate|].
    exists canvas. exact Hshow.
Defined.

(** X22.  From a fresh manager, the commands [begin name], [add member
    tier], [remove member], [remove member], [end] answer "Result:
    SUCCESS", "Added <name> to Tier <tier>", "Result: SUCCESS", "Result:
    USER_NOT_FOUND" and "Result: SUCCESS", for every list name, member and
    tier, and leave the manager with an empty tierlist under the name and
    no active list. *)
Theorem command_session {Image : Type} (name : string)
  (member : discord.Member) (tier : Tier) :
  exists m1 m2 m3,
    @begin_command Image TierlistManager_init name
    = Returns (send_message "Result: SUCCESS", m1) /\
    @add_command Image m1 member (Tier.name tier)
    = Returns (send_message ("Added " +:+ discord.display_name member
                             +:+ " to Tier " +:+ Tier.name tier), m2) /\
    @remove_command Image m2 member
    = Returns (send_message "Result: SUCCESS", m3) /\
    @remove_command Image m3 member
    = Returns (send_message "Result: USER_NOT_FOUND", m3) /\
    @end_command Image m3
    = Returns (send_message "Result: SUCCESS",
               mkManager (<[name := Tierlist_init]> ∅) None).
Proof.
  set (user_data := mkMember (discord.display_name member)
                             (discord.display_avatar_url member)).
  set (listed := snd (add_member Tierlist_init (discord.id member) user_data
                        (TierMember tier))).
  assert (Hremove : remove_member listed (discord.id member)
                    = (true, Tierlist_init)).
  { unfold listed. destruct tier; cbn; rewrite Z.eqb_refl; reflexivity. }
  assert (Hagain : remove_member Tierlist_init (discord.id member)
                   = (false, Tierlist_init)) by reflexivity.
  exists (mkManager (<[name := Tierlist_init]> ∅) (Some name)),
         (mkManager (<[name := listed]> ∅) (Some name)),
         (mkManager (<[name := Tierlist_init]> ∅) (Some name)).
  split; [reflexivity|]. split.
  - unfold add_command.
    rewrite (proj2 (Tier_by_name_spec (Tier.name tier) tier) eq_refl).
    unfold add_to_tierlist. cbn [currently_active tierlists].
    rewrite lookup_insert_eq. cbn [add_member negb bind].
    now rewrite insert_insert_eq.
  - split; [|split].
    + unfold remove_command, remove_from_tierlist.
      cbn [currently_active tierlists]. rewrite lookup_insert_eq, Hremove.
      cbn [negb bind TierlistError_name]. now rewrite insert_insert_eq.
    + unfold remove_command, remove_from_tierlist.
      cbn [currently_active tierlists]. rewrite lookup_insert_eq, Hagain.
      cbn [negb bind TierlistError_name]. now rewrite insert_insert_eq.
    + reflexivity.
Qed.
